(** * Energy measurement (energy_meter.py)

    A shallow embedding of [energy_meter.py]: the two dataclasses, hardware
    source discovery under [/sys/class/powercap], reading capture and the
    tiered energy computation with its counter wrap-around branch.

    Python's [float] is IEEE 754 binary64; it is modelled by Rocq's primitive
    [float], whose operations are specified by [SpecFloat] through the
    standard library's float axioms.  Strings are byte strings in UTF-8.
    Exceptions are modelled by a small error monad, the file system by a
    snapshot of the directory the code enumerates, with the ways in which
    looking for, listing and reading a path can fail.  One trial of
    [benchmark_manager] (benchmark.py), the caller of the meter, is
    embedded with its temporary directory and the install as outcomes of
    the world around it. *)

From Stdlib Require Import ZArith Floats String Ascii List Bool Lia.
From Stdlib Require Import Sorted Permutation DecimalString OrderedTypeEx.
Import ListNotations.

(** ** Exceptions

    The exception classes the module can meet, and the result of a
    computation that either returns or raises. *)

Inductive exn : Type :=
| OSError          (* FileNotFoundError, PermissionError, IsADirectoryError, ... *)
| ValueError       (* float() on non-numeric text, UnicodeDecodeError *)
| ImportError      (* psutil is not installed *)
| PsutilError.     (* psutil.AccessDenied, psutil.NoSuchProcess, ... *)

Inductive result (A : Type) : Type :=
| Return (a : A)
| Raise (e : exn).

Arguments Return {A} a.
Arguments Raise {A} e.

Definition bind {A B : Type} (c : result A) (k : A -> result B) : result B :=
  match c with
  | Return a => k a
  | Raise e => Raise e
  end.

Notation "x <- c ;; k" := (bind c (fun x => k))
  (at level 61, c at next level, right associativity).

(** ** Python builtins on floats and strings *)

Module Py.

Open Scope string_scope.

(** Decimal digits of a non-negative integer. *)
Definition str_of_Z (z : Z) : string :=
  NilZero.string_of_uint (N.to_uint (Z.to_N z)).

Fixpoint zeros (n : nat) : string :=
  match n with
  | O => ""
  | S n' => "0" ++ zeros n'
  end.

(** [z] written with at least [w] digits, zero-padded on the left. *)
Definition zfill (w : nat) (z : Z) : string :=
  let s := str_of_Z z in
  zeros (w - String.length s) ++ s.

Definition sign_str (s : bool) : string := if s then "-" else "".

(** [a / b] rounded to the nearest integer, ties to even ([0 <= a], [0 < b]). *)
Definition div_half_even (a b : Z) : Z :=
  let q := (a / b)%Z in
  let r := (a mod b)%Z in
  match (2 * r ?= b)%Z with
  | Lt => q
  | Gt => (q + 1)%Z
  | Eq => if Z.even q then q else (q + 1)%Z
  end.

(** [format(x, ".3f")]: the exact binary value of [x], correctly rounded to
    three decimals. *)
Definition format_3f (x : float) : string :=
  match Prim2SF x with
  | S754_nan => "nan"
  | S754_infinity s => sign_str s ++ "inf"
  | S754_zero s => sign_str s ++ "0.000"
  | S754_finite s m e =>
      let n := match e with
               | Zneg p => div_half_even (Zpos m * 1000) (2 ^ Zpos p)
               | _ => (Zpos m * 1000 * 2 ^ e)%Z
               end in
      sign_str s ++ str_of_Z (n / 1000) ++ "." ++ zfill 3 (n mod 1000)
  end.

(** *** [repr] of a float: the shortest decimal string that reads back as
    the same binary64 value.

    All quantities are integers scaled by [2 ^ 1076], so that the value, the
    midpoints to its two neighbours and every decimal candidate compare
    exactly. *)

Definition repr_scale : Z := (2 ^ 1076)%Z.

(** [c * 10 ^ k] against the scaled integer [v]. *)
Definition cmp_dec (c k v : Z) : comparison :=
  match k with
  | Zneg p => (c * repr_scale ?= v * 10 ^ Zpos p)%Z
  | _ => (c * 10 ^ k * repr_scale ?= v)%Z
  end.

(** [floor (v / 10 ^ k)] for the scaled integer [v]. *)
Definition floor_dec (v k : Z) : Z :=
  match k with
  | Zneg p => (v * 10 ^ Zpos p / repr_scale)%Z
  | _ => (v / (10 ^ k * repr_scale))%Z
  end.

(** The least [p], searched upwards from [p], with [v < 10 ^ p]. *)
Fixpoint dec_exponent (fuel : nat) (p v : Z) : Z :=
  match fuel with
  | O => p
  | S fuel' =>
      match cmp_dec 1 p v with
      | Gt => p
      | _ => dec_exponent fuel' (p + 1)%Z v
      end
  end.

(** A starting point below the answer: [2 ^ (b - 1) <= m * 2 ^ e] for
    [b = digits2_pos m + e], and [30103 / 100000] exceeds [log10 2] by less
    than [5e-9]. *)
Definition dec_exponent_start (m : positive) (e : Z) : Z :=
  ((Zpos (digits2_pos m) + e - 1) * 30103 / 100000)%Z.

Fixpoint strip_zeros (fuel : nat) (c k : Z) : Z * Z :=
  match fuel with
  | O => (c, k)
  | S fuel' =>
      if ((c mod 10 =? 0) && (0 <? c))%Z
      then strip_zeros fuel' (c / 10)%Z (k + 1)%Z
      else (c, k)
  end.

(** The decimal [d * 10 ^ k] is inside the rounding interval from [lo] to
    [hi]; the ends count when the mantissa is even (ties go to even). *)
Definition inside (even_m : bool) (lo hi d k : Z) : bool :=
  (match cmp_dec d k lo with Gt => true | Eq => even_m | Lt => false end)
  && (match cmp_dec d k hi with Lt => true | Eq => even_m | Gt => false end).

(** Shortest digits: for [n = 1, 2, ...] digits, the two [n]-digit decimals
    around the value; the first [n] with one of them inside the rounding
    interval wins, the nearer of the two when both are inside. *)
Fixpoint shortest_digits (fuel : nat) (n p : Z) (even_m : bool) (lo hi v : Z)
  : Z * Z :=
  let k := (p - n)%Z in
  let c := floor_dec v k in
  match fuel with
  | O => (c, k)
  | S fuel' =>
      match inside even_m lo hi c k, inside even_m lo hi (c + 1)%Z k with
      | true, false => (c, k)
      | false, true => ((c + 1)%Z, k)
      | true, true =>
          match cmp_dec (2 * c + 1) k (2 * v) with
          | Gt => (c, k)
          | Lt => ((c + 1)%Z, k)
          | Eq => if Z.even c then (c, k) else ((c + 1)%Z, k)
          end
      | false, false => shortest_digits fuel' (n + 1)%Z p even_m lo hi v
      end
  end.

(** The shortest decimal [c * 10 ^ k] that reads back as the positive
    finite float [m * 2 ^ e], without trailing zeros in [c]. *)
Definition float_decimal (m : positive) (e : Z) : Z * Z :=
  let v := (Zpos m * 2 ^ (e + 1076))%Z in
  let up := (2 ^ (e + 1075))%Z in
  let down := if ((Zpos m =? 2 ^ 52) && (-1074 <? e))%Z
              then (2 ^ (e + 1074))%Z else up in
  let p := dec_exponent 8 (dec_exponent_start m e) v in
  let '(c, k) := shortest_digits 17 1 p (Z.even (Zpos m)) (v - down) (v + up) v in
  strip_zeros 20 c k.

(** Digits and position of the decimal point of a positive finite float
    [m * 2 ^ e]: the value is [0.d1d2...dn * 10 ^ decpt]. *)
Definition float_digits (m : positive) (e : Z) : string * Z :=
  let '(c, k) := float_decimal m e in
  let d := str_of_Z c in
  (d, (Z.of_nat (String.length d) + k)%Z).

(** The digits [d] laid out with the decimal point after [decpt] of them:
    in scientific notation when [decpt] is below -3 or above 16, else with
    leading zeros, with trailing zeros and [.0], or with the point inside
    the digits. *)
Definition float_layout (d : string) (decpt : Z) : string :=
  let len := Z.of_nat (String.length d) in
  if ((decpt <=? -4) || (16 <? decpt))%Z then
    let x10 := (decpt - 1)%Z in
    substring 0 1 d
    ++ (if (1 <? len)%Z then "." ++ substring 1 (String.length d - 1) d else "")
    ++ "e" ++ (if (x10 <? 0)%Z then "-" else "+") ++ zfill 2 (Z.abs x10)
  else if (decpt <=? 0)%Z then
    "0." ++ zeros (Z.to_nat (- decpt)) ++ d
  else if (len <=? decpt)%Z then
    d ++ zeros (Z.to_nat (decpt - len)) ++ ".0"
  else
    substring 0 (Z.to_nat decpt) d ++ "."
    ++ substring (Z.to_nat decpt) (String.length d - Z.to_nat decpt) d.

(** [repr(x)], which is also [str(x)] and what an f-string field without a
    format specification inserts. *)
Definition repr (x : float) : string :=
  match Prim2SF x with
  | S754_nan => "nan"
  | S754_infinity s => sign_str s ++ "inf"
  | S754_zero s => sign_str s ++ "0.0"
  | S754_finite s m e =>
      let '(d, decpt) := float_digits m e in
      sign_str s ++ float_layout d decpt
  end.

End Py.

(** ** Data model *)

Open Scope float_scope.

(** Conservative default TDP in watts used for CPU-time-based estimation. *)
Definition DEFAULT_TDP_WATTS : float := 15.

(** A snapshot of energy state at a point in time.  [None] in
    [rapl_joules] when RAPL is unavailable, in [cpu_time_seconds] when
    psutil is. *)
Record EnergyReading : Type := {
  timestamp : float;
  rapl_joules : option float;
  cpu_time_seconds : option float
}.

(** Energy and timing result for one measurement interval. *)
Record EnergyMeasurement : Type := {
  duration_seconds : float;
  energy_joules : float;
  source : string;
  notes : string
}.

(** ** The environment

    The environment is a snapshot: the state of [RAPL_BASE] with, for each
    entry, the state of the two counter files below it, the state of psutil
    and the value of the monotonic clock.

    What [(p / name).exists()] and
    [float((p / name).read_text().strip())] meet at a path: *)
Inductive file_state : Type :=
| Missing                 (* no such file: [exists()] is false *)
| NoAccess                (* [stat] fails with an error [exists()] passes on,
                             such as PermissionError; reading fails too *)
| Unreadable              (* the file exists, reading it raises an OSError *)
| NonNumeric              (* the text is not a float literal *)
| Numeric (v : float).    (* the text parses to [v] *)

(** An entry of [RAPL_BASE], with the two counter files the code looks for
    below it.  A [Path] the code passes around is such an entry. *)
Record Path : Type := {
  name : string;
  energy_uj : file_state;
  max_energy_range_uj : file_state
}.

(** [/sys/class/powercap]. *)
Inductive powercap : Type :=
| Absent                          (* [exists()] is false *)
| Inaccessible                    (* [exists()] raises: [stat] fails with an
                                     error it passes on *)
| NotListable                     (* it exists, [iterdir()] raises: not a
                                     directory, or no permission to list *)
| Listed (entries : list Path).   (* the entries [iterdir()] yields, in the
                                     order the operating system returns them *)

(** What [psutil] offers: the import fails, [Process()] or [cpu_times()]
    raises, or the times are returned, with the two children fields where
    the platform has them. *)
Inductive psutil_state : Type :=
| NoPsutil
| ProcessFails
| CpuTimes (user system : float) (children : option (float * float)).

Record environment : Type := {
  RAPL_BASE : powercap;
  psutil : psutil_state;
  monotonic : float
}.

(** [Path.exists()]: false for a missing file, an exception for the errors
    of [stat] it does not swallow. *)
Definition exists_ (f : file_state) : result bool :=
  match f with
  | Missing => Return false
  | NoAccess => Raise OSError
  | _ => Return true
  end.

Definition read_float (f : file_state) : result float :=
  match f with
  | Missing => Raise OSError
  | NoAccess => Raise OSError
  | Unreadable => Raise OSError
  | NonNumeric => Raise ValueError
  | Numeric v => Return v
  end.

(** ** Source discovery *)

Fixpoint skip (n : nat) (s : string) : string :=
  match n, s with
  | S n', String _ s' => skip n' s'
  | _, _ => s
  end.

Fixpoint contains (c : ascii) (s : string) : bool :=
  match s with
  | EmptyString => false
  | String a s' => Ascii.eqb a c || contains c s'
  end.

(** The two tests on the name in the filter of [_rapl_packages]:
    [p.name.startswith("intel-rapl:")
     and ":" not in p.name[len("intel-rapl:"):]]. *)
Definition package_named (p : Path) : bool :=
  prefix "intel-rapl:" (name p)
  && negb (contains ":" (skip (String.length "intel-rapl:") (name p))).

(** The whole filter: the name, [and (p / "energy_uj").exists()], which is
    evaluated only for a name that passes. *)
Definition is_package (p : Path) : result bool :=
  if package_named p then exists_ (energy_uj p) else Return false.

(** The generator [p for p in RAPL_BASE.iterdir() if ...], consumed in
    order: the first test that raises ends it. *)
Fixpoint packages_of (entries : list Path) : result (list Path) :=
  match entries with
  | [] => Return []
  | p :: rest =>
      keep <- is_package p ;;
      ps <- packages_of rest ;;
      Return (if keep then p :: ps else ps)
  end.

(** [sorted]: paths of one directory compare by name; an insertion sort that
    keeps equal keys in their original order. *)
Fixpoint insert (p : Path) (l : list Path) : list Path :=
  match l with
  | [] => [p]
  | q :: l' => if String.ltb (name q) (name p) then q :: insert p l' else p :: l
  end.

Fixpoint sorted (l : list Path) : list Path :=
  match l with
  | [] => []
  | p :: l' => insert p (sorted l')
  end.

(** Return the RAPL package directories that expose energy_uj files.
    Nothing here is inside a [try]: what [exists()] and [iterdir()] raise
    leaves the function. *)
Definition _rapl_packages (base : powercap) : result (list Path) :=
  match base with
  | Inaccessible => Raise OSError
  | Absent => Return []
  | NotListable => Raise OSError
  | Listed entries =>
      ps <- packages_of entries ;;
      Return (sorted ps)
  end.

(** ** Reading capture *)

(** Sum energy_uj across all RAPL packages.  Returns None on any error. *)
Fixpoint read_rapl_loop (total : float) (packages : list Path)
  : result (option float) :=
  match packages with
  | [] => Return (Some total)
  | pkg :: rest =>
      match read_float (energy_uj pkg) with
      | Return v => read_rapl_loop (total + v) rest
      | Raise OSError | Raise ValueError => Return None
      | Raise e => Raise e
      end
  end.

Definition _read_rapl_uj (packages : list Path) : result (option float) :=
  read_rapl_loop 0 packages.

(** The body of the [try] of [_read_cpu_time]. *)
Definition cpu_time_body (ps : psutil_state) : result float :=
  match ps with
  | NoPsutil => Raise ImportError
  | ProcessFails => Raise PsutilError
  | CpuTimes user system children =>
      let total := user + system in
      match children with
      | Some (children_user, children_system) =>
          Return (total + (children_user + children_system))
      | None => Return total
      end
  end.

(** Return total CPU time (user + system, including children) in seconds;
    [except Exception: return None]. *)
Definition _read_cpu_time (ps : psutil_state) : result (option float) :=
  match cpu_time_body ps with
  | Return total => Return (Some total)
  | Raise _ => Return None
  end.

(** Capture current energy state (RAPL counters + CPU time).  The call of
    [_rapl_packages] is not inside a [try]. *)
Definition take_reading (env : environment) : result EnergyReading :=
  packages <- _rapl_packages (RAPL_BASE env) ;;
  rapl_uj <- match packages with
             | [] => Return None
             | _ => _read_rapl_uj packages
             end ;;
  cpu_time <- _read_cpu_time (psutil env) ;;
  Return {| timestamp := monotonic env;
            rapl_joules := match rapl_uj with
                           | Some uj => Some (uj / 1000000)
                           | None => None
                           end;
            cpu_time_seconds := cpu_time |}.

(** ** Energy computation *)

(** The builtin [sum] over floats, from the integer [0]: the additions from
    left to right.  (From CPython 3.12 on [sum] carries a compensation term
    for floats; it is zero for up to one summand.) *)
Definition sum (l : list float) : float := fold_left PrimFloat.add l 0.

(** The generator of the wrap-around branch, consumed by [sum]:
    [float((p / "max_energy_range_uj").read_text().strip()) for p in packages
     if (p / "max_energy_range_uj").exists()]. *)
Fixpoint max_ranges (packages : list Path) : result (list float) :=
  match packages with
  | [] => Return []
  | p :: rest =>
      there <- exists_ (max_energy_range_uj p) ;;
      if there then
        v <- read_float (max_energy_range_uj p) ;;
        vs <- max_ranges rest ;;
        Return (v :: vs)
      else max_ranges rest
  end.

(** The wrap-around branch: [packages = _rapl_packages()], which is before
    the [try], then the [try] block and its handler. *)
Definition wrap_correct (base : powercap) (delta : float) : result float :=
  packages <- _rapl_packages base ;;
  match (vs <- max_ranges packages ;; Return (delta + sum vs / 1000000)) with
  | Return d => Return d
  | Raise OSError | Raise ValueError => Return (abs delta)
  | Raise e => Raise e
  end.

Definition cpu_notes (cpu_delta tdp_watts : float) : string :=
  ("Estimated using cpu_time=" ++ Py.format_3f cpu_delta ++ "s × tdp="
   ++ Py.repr tdp_watts ++ "W")%string.

Definition elapsed_notes (duration tdp_watts : float) : string :=
  ("Estimated using elapsed=" ++ Py.format_3f duration ++ "s × tdp="
   ++ Py.repr tdp_watts ++ "W (no CPU time available)")%string.

(** Compute energy consumed between two readings.  Prefers RAPL when
    available; falls back to [cpu_time_delta * tdp_watts], then to
    [duration * tdp_watts]. *)
Definition compute_energy (base : powercap) (start end_ : EnergyReading)
    (tdp_watts : float) : result EnergyMeasurement :=
  let duration := timestamp end_ - timestamp start in
  match rapl_joules start, rapl_joules end_ with
  | Some start_rapl, Some end_rapl =>
      let delta := end_rapl - start_rapl in
      delta' <- (if delta <? 0 then wrap_correct base delta else Return delta) ;;
      Return {| duration_seconds := duration;
                energy_joules := delta';
                source := "rapl";
                notes := "" |}
  | _, _ =>
      match cpu_time_seconds start, cpu_time_seconds end_ with
      | Some start_cpu, Some end_cpu =>
          let cpu_delta := end_cpu - start_cpu in
          let estimated := cpu_delta * tdp_watts in
          Return {| duration_seconds := duration;
                    energy_joules := estimated;
                    source := "cpu_time_estimate";
                    notes := cpu_notes cpu_delta tdp_watts |}
      | _, _ =>
          Return {| duration_seconds := duration;
                    energy_joules := duration * tdp_watts;
                    source := "elapsed_time_estimate";
                    notes := elapsed_notes duration tdp_watts |}
      end
  end.

(** ** Predicates of the statements *)

(** The sign carried by a float that is not a NaN. *)
Definition sf_signed (s : bool) (x : spec_float) : Prop :=
  match x with
  | S754_zero s' | S754_infinity s' | S754_finite s' _ _ => s' = s
  | S754_nan => False
  end.

(** Neither a negative number nor minus infinity. *)
Definition sf_not_negative (x : spec_float) : Prop :=
  match x with
  | S754_infinity true | S754_finite true _ _ => False
  | _ => True
  end.

(** A zero or a finite number. *)
Definition sf_finite (x : spec_float) : Prop :=
  match x with
  | S754_zero _ | S754_finite _ _ _ => True
  | _ => False
  end.

(** The order [sorted] puts paths of one directory in. *)
Definition name_le (p q : Path) : Prop := String.leb (name p) (name q) = true.

(** A top-level package directory: [intel-rapl:N]. *)
Definition package_name (n : string) : Prop :=
  exists suffix,
    n = ("intel-rapl:" ++ suffix)%string /\ contains ":" suffix = false.

(** A sub-zone directory, nested below a package: [intel-rapl:N:M]. *)
Definition subzone_name (n : string) : Prop :=
  exists parent rest,
    prefix "intel-rapl:" parent = true /\ n = (parent ++ ":" ++ rest)%string.

(** [math.isfinite] on the fields that are present. *)
Definition finite_opt (o : option float) : bool :=
  match o with
  | Some v => is_finite v
  | None => true
  end.

Definition finite_reading (r : EnergyReading) : bool :=
  is_finite (timestamp r) && finite_opt (rapl_joules r)
  && finite_opt (cpu_time_seconds r).

Definition leb_opt (a b : option float) : bool :=
  match a, b with
  | Some x, Some y => x <=? y
  | _, _ => true
  end.

(** No signal decreases from [start] to [end_]. *)
Definition non_decreasing (start end_ : EnergyReading) : bool :=
  (timestamp start <=? timestamp end_)
  && leb_opt (rapl_joules start) (rapl_joules end_)
  && leb_opt (cpu_time_seconds start) (cpu_time_seconds end_).

(** The maximum ranges of the sources whose range file exists, where all of
    those parse. *)
Definition existing_max_ranges (packages : list Path) : list float :=
  flat_map (fun p => match max_energy_range_uj p with
                     | Numeric v => [v]
                     | _ => []
                     end) packages.

(** The range file of [p] is skipped (it does not exist) or parses. *)
Definition range_parses (p : Path) : Prop :=
  max_energy_range_uj p = Missing
  \/ exists v, max_energy_range_uj p = Numeric v.

(** Looking for, reading or parsing the range file of [p] raises. *)
Definition range_fails (p : Path) : Prop :=
  max_energy_range_uj p = Unreadable
  \/ max_energy_range_uj p = NonNumeric
  \/ max_energy_range_uj p = NoAccess.

(** The counter values of the sources whose [energy_uj] parses, in order. *)
Definition counter_values (packages : list Path) : list float :=
  flat_map (fun p => match energy_uj p with
                     | Numeric v => [v]
                     | _ => []
                     end) packages.

(** Every source's [energy_uj] parses. *)
Definition all_numeric (packages : list Path) : Prop :=
  forall p, In p packages -> exists v, energy_uj p = Numeric v.

(** No counter that parses is negative. *)
Definition counters_nonneg (packages : list Path) : Prop :=
  forall p v, In p packages -> energy_uj p = Numeric v -> (0 <=? v) = true.

(** The times psutil reports, where it reports any, are not negative. *)
Definition cpu_times_nonneg (ps : psutil_state) : Prop :=
  match ps with
  | CpuTimes user system children =>
      (0 <=? user) = true /\ (0 <=? system) = true
      /\ match children with
         | Some (children_user, children_system) =>
             (0 <=? children_user) = true /\ (0 <=? children_system) = true
         | None => True
         end
  | _ => True
  end.

(** Two factors whose product is [>= 0]: both are [>= 0] or both are
    [<= 0], and the product is not zero times infinity, which is a NaN. *)
Definition nonneg_factors (x t : float) : Prop :=
  (((0 <=? x) = true /\ (0 <=? t) = true)
   \/ ((x <=? 0) = true /\ (t <=? 0) = true))
  /\ (is_finite x = true \/ (t =? 0) = false)
  /\ (is_finite t = true \/ (x =? 0) = false).

(** The inputs on which each tier gives an energy that is not negative.
    Hardware tier: the difference is [>= 0]; or it is negative, the sources
    are enumerated, and the correction is either [abs(delta)] or adds a
    finite range sum of at least [-delta].  Estimate tiers: the difference
    multiplied and [tdp_watts] are such factors. *)
Definition nonneg_inputs (base : powercap) (start end_ : EnergyReading)
    (tdp_watts : float) : Prop :=
  match rapl_joules start, rapl_joules end_ with
  | Some start_rapl, Some end_rapl =>
      let delta := end_rapl - start_rapl in
      (0 <=? delta) = true
      \/ ((delta <? 0) = true
          /\ exists packages,
               _rapl_packages base = Return packages
               /\ ((exists p, In p packages /\ range_fails p)
                   \/ ((forall p, In p packages -> range_parses p)
                       /\ is_finite (sum (existing_max_ranges packages)
                                     / 1000000) = true
                       /\ (- delta <=? sum (existing_max_ranges packages)
                                       / 1000000) = true)))
  | _, _ =>
      match cpu_time_seconds start, cpu_time_seconds end_ with
      | Some start_cpu, Some end_cpu =>
          nonneg_factors (end_cpu - start_cpu) tdp_watts
      | _, _ => nonneg_factors (timestamp end_ - timestamp start) tdp_watts
      end
  end.

(** [n] is the integer nearest to [1000 * m * 2 ^ e], a half counting as
    near: the thousandths [format(_, ".3f")] prints. *)
Definition nearest_thousandth (m : positive) (e n : Z) : Prop :=
  match e with
  | Zneg p => (Z.abs (2 * (n * 2 ^ Zpos p - 1000 * Zpos m)) <= 2 ^ Zpos p)%Z
  | _ => n = (1000 * Zpos m * 2 ^ e)%Z
  end.

(** The decimal [c * 10 ^ k] against the interval from [lo] to [hi], which
    are scaled by [2 ^ 1076]: inside it, the ends counting when [closed]. *)
Definition decimal_within (closed : bool) (lo hi c k : Z) : Prop :=
  let a := (c * 10 ^ Z.max 0 k * 2 ^ 1076)%Z in
  let l := (lo * 10 ^ Z.max 0 (- k))%Z in
  let h := (hi * 10 ^ Z.max 0 (- k))%Z in
  if closed then (l <= a <= h)%Z else (l < a < h)%Z.

(** The decimal [c * 10 ^ k] reads back as the float [m * 2 ^ e]: it lies
    between the midpoints to the two neighbouring floats, half a unit in
    the last place above and below (a quarter below a power of two, whose
    lower neighbour is half as far); a midpoint counts when [m] is even,
    as ties round to even. *)
Definition reads_back (m : positive) (e c k : Z) : Prop :=
  let v := (Zpos m * 2 ^ (e + 1076))%Z in
  let up := (2 ^ (e + 1075))%Z in
  let down := if ((Zpos m =? 2 ^ 52) && (-1074 <? e))%Z
              then (2 ^ (e + 1074))%Z else up in
  decimal_within (Z.even (Zpos m)) (v - down) (v + up) c k.

(** ** One benchmark trial (benchmark.py)

    [benchmark_manager] creates a temporary directory, takes a reading,
    runs the install, takes a second reading, removes the directory and
    computes the measurement.  Creating and removing the directory and the
    install act on the world outside: the model takes their outcomes, and
    the environment at the two readings and at the computation, as given.
    The log is not modelled. *)

Module Benchmark.

(** What can leave [benchmark_manager] as an exception. *)
Inductive failure : Type :=
| MeterError (e : exn)   (* raised inside energy_meter *)
| RuntimeError           (* [_run]: the command exited with a non-zero code *)
| InstallError           (* anything else [run_install] raises *)
| TmpDirError.           (* [TemporaryDirectory]: creation or removal fails *)

Inductive outcome (A : Type) : Type :=
| Done (a : A)
| Failed (f : failure).

Arguments Done {A} a.
Arguments Failed {A} f.

Definition of_result {A : Type} (c : result A) : outcome A :=
  match c with
  | Return a => Done a
  | Raise e => Failed (MeterError e)
  end.

Definition and_then {A B : Type} (c : outcome A) (k : A -> outcome B)
  : outcome B :=
  match c with
  | Done a => k a
  | Failed f => Failed f
  end.

Record BenchmarkResult : Type := {
  manager : string;
  operation : string;
  packages : list string;
  run : Z;
  duration_seconds : float;
  energy_joules : float;
  energy_source : string;
  notes : string
}.

(** A runner, as far as [benchmark_manager] looks at it. *)
Record Runner : Type := {
  name : string
}.

(** The world around one trial: whether the temporary directory can be
    created, the environment at the first reading, what
    [runner.run_install] does ([None]: it returns), the environment at the
    second reading, whether the directory can be removed, and the counter
    directory when the measurement is computed. *)
Record trial : Type := {
  tmp_created : bool;
  before : environment;
  run_install : option failure;
  after : environment;
  tmp_removed : bool;
  at_compute : powercap
}.

(** The body of the [with] statement: both readings around the install. *)
Definition readings (w : trial) : outcome (EnergyReading * EnergyReading) :=
  and_then (of_result (take_reading (before w))) (fun start =>
  match run_install w with
  | Some f => Failed f
  | None =>
      and_then (of_result (take_reading (after w))) (fun end_ =>
      Done (start, end_))
  end).

(** [with tempfile.TemporaryDirectory(...) as tmp: body]: the body runs
    once the directory is created; leaving the block removes the directory,
    and a failure to remove it replaces the outcome of the body. *)
Definition with_tmp_dir {A : Type} (w : trial) (body : outcome A)
  : outcome A :=
  if tmp_created w then
    if tmp_removed w then body else Failed TmpDirError
  else Failed TmpDirError.

(** Run one install trial for [runner] and return the measured result. *)
Definition benchmark_manager (runner : Runner) (pkgs : list string)
    (run_index : Z) (tdp_watts : float) (w : trial) : outcome BenchmarkResult :=
  and_then (with_tmp_dir w (readings w)) (fun '(start, end_) =>
  and_then (of_result (compute_energy (at_compute w) start end_ tdp_watts))
    (fun measurement =>
       let '(Build_EnergyMeasurement duration energy src nts) :=
         measurement in
       Done {| manager := name runner;
               operation := "install";
               packages := pkgs;
               run := run_index;
               duration_seconds := duration;
               energy_joules := energy;
               energy_source := src;
               notes := nts |})).

End Benchmark.

(** ** The readings and directories of the test suite *)

Definition _make_reading (ts : float) (rapl_j cpu_t : option float)
  : EnergyReading :=
  {| timestamp := ts; rapl_joules := rapl_j; cpu_time_seconds := cpu_t |}.

Definition no_powercap : powercap := Absent.

(** One package with both counter files, as in
    [test_compute_energy_rapl_wrap_around]. *)
Definition wrap_pkg : Path :=
  {| name := "intel-rapl:0"; energy_uj := Numeric 100000;
     max_energy_range_uj := Numeric 262143328850 |}.

Definition one_package : powercap := Listed [wrap_pkg].

(** A package and its sub-zone, as in
    [test_rapl_packages_ignores_subdomains], listed in either order. *)
Definition pkg0 : Path :=
  {| name := "intel-rapl:0"; energy_uj := Numeric 500;
     max_energy_range_uj := Missing |}.

Definition sub0 : Path :=
  {| name := "intel-rapl:0:0"; energy_uj := Numeric 200;
     max_energy_range_uj := Missing |}.

Definition pkg1 : Path :=
  {| name := "intel-rapl:1"; energy_uj := Unreadable;
     max_energy_range_uj := NonNumeric |}.

Definition with_subzone : powercap := Listed [pkg1; sub0; pkg0].

Definition with_subzone' : powercap := Listed [sub0; pkg0; pkg1].

(** A package directory that cannot be searched: [stat] on its
    [energy_uj] fails with PermissionError. *)
Definition locked : Path :=
  {| name := "intel-rapl:0"; energy_uj := NoAccess;
     max_energy_range_uj := NoAccess |}.

(** * The definitions on the inputs of the test suite *)

Module Examples.

Local Open Scope string_scope.

(** [repr] and [format(_, ".3f")] as CPython prints them; 0.0625 and 0.1875
    are exact ties at the third decimal. *)
Example repr_values :
  Py.repr 10 = "10.0"
  /\ Py.repr 0x1.999999999999ap-4 = "0.1"
  /\ Py.repr 0x1.5555555555555p-2 = "0.3333333333333333"
  /\ Py.repr 0x1.0f0cf064dd592p+73 = "1e+22"
  /\ Py.repr 0x1.4f8b588e368f1p-17 = "1e-05"
  /\ Py.repr 0x1.1c37937e08000p+53 = "1e+16"
  /\ Py.repr 0x0.0000000000001p-1022 = "5e-324"
  /\ Py.repr (-262133) = "-262133.0".
Proof. vm_compute. repeat split. Qed.

Example format_3f_values :
  Py.format_3f 2 = "2.000"
  /\ Py.format_3f 0x1.5666666666666p+1 = "2.675"
  /\ Py.format_3f 0x1.0624dd2f1a9fcp-11 = "0.001"
  /\ Py.format_3f 0.0625 = "0.062"
  /\ Py.format_3f 0.1875 = "0.188"
  /\ Py.format_3f 0x1.4f8b588e368f1p-17 = "0.000"
  /\ Py.format_3f 0x1.b1ae4d6e2ef50p+69 = "1000000000000000000000.000"
  /\ Py.format_3f (-0) = "-0.000".
Proof. vm_compute. repeat split. Qed.

(** [test_rapl_packages_missing_dir], [test_rapl_packages_ignores_subdomains]
    and [test_rapl_packages_no_energy_file]. *)
Example rapl_packages_tests :
  _rapl_packages no_powercap = Return []
  /\ _rapl_packages (Listed [sub0; pkg0]) = Return [pkg0]
  /\ _rapl_packages
       (Listed [ {| name := "intel-rapl:0"; energy_uj := Missing;
                    max_energy_range_uj := Missing |} ])
     = Return [].
Proof. repeat split. Qed.

(** Discovery where the file system refuses: [/sys/class/powercap] is no
    directory or may not be listed, or a package directory may not be
    searched.  An entry with another name is not looked into. *)
Example rapl_packages_refused :
  _rapl_packages NotListable = Raise OSError
  /\ _rapl_packages Inaccessible = Raise OSError
  /\ _rapl_packages (Listed [sub0; pkg0; locked]) = Raise OSError
  /\ _rapl_packages
       (Listed [ {| name := "dtpm"; energy_uj := NoAccess;
                    max_energy_range_uj := NoAccess |}; pkg0 ])
     = Return [pkg0].
Proof. repeat split. Qed.

(** [test_read_rapl_uj_sums_packages], [test_read_rapl_uj_empty_list] and
    [test_read_rapl_uj_missing_file]. *)
Example read_rapl_uj_tests :
  _read_rapl_uj
    [ {| name := "intel-rapl:0"; energy_uj := Numeric 1000000;
         max_energy_range_uj := Missing |};
      {| name := "intel-rapl:1"; energy_uj := Numeric 2000000;
         max_energy_range_uj := Missing |} ]
  = Return (Some 3000000%float)
  /\ _read_rapl_uj [] = Return (Some 0%float)
  /\ _read_rapl_uj
       [ {| name := "intel-rapl:0"; energy_uj := Missing;
            max_energy_range_uj := Missing |} ]
     = Return None.
Proof. repeat split. Qed.

(** [test_compute_energy_rapl_wrap_around]: the corrected energy is
    positive and below the counter range, about 10.33 joules. *)
Example compute_energy_wrap_around_test :
  compute_energy one_package
    (_make_reading 0 (Some 262143%float) None)
    (_make_reading 5 (Some 10%float) None) 15
  = Return {| duration_seconds := 5;
              energy_joules := 0x1.4a85f06f68000p+3;
              source := "rapl";
              notes := "" |}
  /\ Py.repr 0x1.4a85f06f68000p+3 = "10.32884999999078"
  /\ (0 <? 0x1.4a85f06f68000p+3)%float = true
  /\ (0x1.4a85f06f68000p+3 <? 262143328850 / 1000000)%float = true.
Proof. vm_compute. repeat split. Qed.

(** The same readings where the sources cannot be enumerated again, and
    where the range file of the package cannot be looked for: the first
    raises, the second falls back to the magnitude of the difference. *)
Example compute_energy_wrap_around_refused :
  compute_energy NotListable
    (_make_reading 0 (Some 262143%float) None)
    (_make_reading 5 (Some 10%float) None) 15
  = Raise OSError
  /\ compute_energy
       (Listed [ {| name := "intel-rapl:0"; energy_uj := Numeric 100000;
                    max_energy_range_uj := NoAccess |} ])
       (_make_reading 0 (Some 262143%float) None)
       (_make_reading 5 (Some 10%float) None) 15
     = Return {| duration_seconds := 5;
                 energy_joules := 262133;
                 source := "rapl";
                 notes := "" |}.
Proof. vm_compute. repeat split. Qed.

(** One package at 100000 microjoules with psutil reporting child times:
    0.1 joules and 4 seconds; an unreadable package with psutil raising:
    both signals absent. *)
Example take_reading_values :
  take_reading {| RAPL_BASE := one_package;
                  psutil := CpuTimes 1.5 0.25 (Some (2, 0.25)%float);
                  monotonic := 100 |}
  = Return {| timestamp := 100;
              rapl_joules := Some 0x1.999999999999ap-4%float;
              cpu_time_seconds := Some 4%float |}
  /\ take_reading {| RAPL_BASE := with_subzone; psutil := ProcessFails;
                     monotonic := 100 |}
     = Return {| timestamp := 100;
                 rapl_joules := None;
                 cpu_time_seconds := None |}.
Proof. vm_compute. repeat split. Qed.

(** One trial of [benchmark_manager] with a mock runner and no counters,
    as in [test_benchmark_manager_returns_result]; the same trial when the
    temporary directory cannot be removed, and when the install fails. *)
Example benchmark_manager_trials :
  let w created failure removed :=
    {| Benchmark.tmp_created := created;
       Benchmark.before :=
         {| RAPL_BASE := no_powercap; psutil := CpuTimes 1 0.5 None;
            monotonic := 100 |};
       Benchmark.run_install := failure;
       Benchmark.after :=
         {| RAPL_BASE := no_powercap; psutil := CpuTimes 2 1 None;
            monotonic := 104 |};
       Benchmark.tmp_removed := removed;
       Benchmark.at_compute := no_powercap |} in
  Benchmark.benchmark_manager {| Benchmark.name := "mock" |} ["requests"] 1 15
    (w true None true)
  = Benchmark.Done
      {| Benchmark.manager := "mock";
         Benchmark.operation := "install";
         Benchmark.packages := ["requests"];
         Benchmark.run := 1;
         Benchmark.duration_seconds := 4;
         Benchmark.energy_joules := 22.5;
         Benchmark.energy_source := "cpu_time_estimate";
         Benchmark.notes := "Estimated using cpu_time=1.500s × tdp=15.0W" |}
  /\ Benchmark.benchmark_manager {| Benchmark.name := "mock" |} ["requests"]
       1 15 (w true None false)
     = Benchmark.Failed Benchmark.TmpDirError
  /\ Benchmark.benchmark_manager {| Benchmark.name := "mock" |} ["requests"]
       1 15 (w true (Some Benchmark.RuntimeError) true)
     = Benchmark.Failed Benchmark.RuntimeError.
Proof. vm_compute. repeat split. Qed.

End Examples.

(** * Facts

    ** Floats: signs through rounding, order and subtraction *)

Module FloatFacts.

Local Open Scope float_scope.

(** *** Rounding keeps the sign *)

Lemma shr_1_nonneg mrs : (0 <= shr_m mrs -> 0 <= shr_m (shr_1 mrs))%Z.
Proof.
  destruct mrs as [m r s]; simpl.
  destruct m as [|[p|p|]|[p|p|]]; simpl; lia.
Qed.

Lemma iter_shr_1_nonneg p : forall mrs,
  (0 <= shr_m mrs -> 0 <= shr_m (iter_pos shr_1 p mrs))%Z.
Proof.
  induction p as [p IH|p IH|]; intros mrs H; simpl.
  - apply IH, IH, shr_1_nonneg, H.
  - apply IH, IH, H.
  - apply shr_1_nonneg, H.
Qed.

Lemma shr_record_of_loc_m m l : shr_m (shr_record_of_loc m l) = m.
Proof. destruct l as [|[| |]]; reflexivity. Qed.

Lemma shr_fexp_nonneg m e l :
  (0 <= m -> 0 <= shr_m (fst (shr_fexp prec emax m e l)))%Z.
Proof.
  intros H. unfold shr_fexp, shr.
  destruct (fexp prec emax (Zdigits2 m + e) - e)%Z; simpl;
    try (rewrite shr_record_of_loc_m; exact H).
  apply iter_shr_1_nonneg. rewrite shr_record_of_loc_m. exact H.
Qed.

Lemma round_nearest_even_nonneg m l :
  (0 <= m -> 0 <= round_nearest_even m l)%Z.
Proof.
  intros H. destruct l as [|[| |]]; simpl; try lia.
  destruct (Z.even m); lia.
Qed.

Lemma binary_round_aux_signed s m e l :
  (0 <= m)%Z -> sf_signed s (binary_round_aux prec emax s m e l).
Proof.
  intros H. unfold binary_round_aux.
  pose proof (shr_fexp_nonneg m e l H) as H1.
  destruct (shr_fexp prec emax m e l) as [mrs' e'].
  simpl in H1.
  pose proof (shr_fexp_nonneg
                (round_nearest_even (shr_m mrs') (loc_of_shr_record mrs'))
                e' loc_Exact (round_nearest_even_nonneg _ _ H1)) as H2.
  destruct (shr_fexp prec emax _ e' loc_Exact) as [mrs'' e''].
  simpl in H2.
  destruct (shr_m mrs''); simpl; try reflexivity.
  - destruct (Z.leb _ _); reflexivity.
  - lia.
Qed.

Lemma binary_round_signed s m e : sf_signed s (binary_round prec emax s m e).
Proof.
  unfold binary_round.
  destruct (shl_align m e _) as [mz ez].
  apply binary_round_aux_signed. lia.
Qed.

Lemma binary_normalize_nonneg m e :
  (0 <= m)%Z -> sf_signed false (binary_normalize prec emax m e false).
Proof.
  intros H. destruct m; simpl; try reflexivity.
  - apply binary_round_signed.
  - lia.
Qed.

(** *** Mantissas of canonical floats *)

Lemma digits2_pos_bounds m :
  (2 ^ (Zpos (digits2_pos m) - 1) <= Zpos m < 2 ^ Zpos (digits2_pos m))%Z.
Proof.
  induction m as [m IH|m IH|]; simpl digits2_pos;
    [| |simpl; lia];
    rewrite Pos2Z.inj_succ;
    set (d := Zpos (digits2_pos m)) in *;
    assert (Hd : (0 < d)%Z) by (subst d; lia);
    assert (E : (2 ^ d = 2 * 2 ^ (d - 1))%Z)
      by (replace d with (Z.succ (d - 1)) at 1 by lia;
          apply Z.pow_succ_r; lia);
    replace (Z.succ d - 1)%Z with d by lia;
    rewrite Z.pow_succ_r by lia; lia.
Qed.

Lemma iter_xO m d : Zpos (Pos.iter xO m d) = (Zpos m * 2 ^ Zpos d)%Z.
Proof.
  induction d as [|d IH] using Pos.peano_ind.
  - simpl. lia.
  - rewrite Pos.iter_succ, Pos2Z.inj_succ, Z.pow_succ_r by lia.
    rewrite Pos2Z.inj_xO, IH. lia.
Qed.

Lemma shl_align_fst m e ez :
  (ez <= e)%Z -> Zpos (fst (shl_align m e ez)) = (Zpos m * 2 ^ (e - ez))%Z.
Proof.
  intros H. unfold shl_align.
  destruct (ez - e)%Z as [|d|d] eqn:E; cbn [fst].
  - replace (e - ez)%Z with 0%Z by lia. rewrite Z.pow_0_r. lia.
  - lia.
  - rewrite iter_xO. replace (e - ez)%Z with (Zpos d) by lia. reflexivity.
Qed.

(** A canonical mantissa has at most [prec] bits, and exactly [prec] above
    the least exponent. *)
Lemma bounded_digits m e :
  bounded prec emax m e = true ->
  (emin <= e /\ Zpos m < 2 ^ prec
   /\ (emin < e -> 2 ^ (prec - 1) <= Zpos m))%Z.
Proof.
  unfold bounded, canonical_mantissa, fexp, SpecFloat.emin.
  intros H. apply andb_prop in H. destruct H as [H _].
  apply Z.eqb_eq in H.
  pose proof (digits2_pos_bounds m) as [Hl Hu].
  remember (Zpos (digits2_pos m)) as d.
  assert (Hd : (0 < d)%Z) by (subst d; lia).
  change prec with 53%Z in *. change emax with 1024%Z in *.
  assert (Hle : (d <= 53)%Z) by lia.
  split; [lia|]. split.
  - apply Z.lt_le_trans with (2 ^ d)%Z; [exact Hu|].
    apply Z.pow_le_mono_r; lia.
  - intros He. assert (d = 53)%Z by lia. subst d.
    replace (53 - 1)%Z with (Zpos (digits2_pos m) - 1)%Z by lia. exact Hl.
Qed.

(** Comparing exponents first is comparing values, for canonical mantissas. *)
Lemma aligned_le ma ea mb eb :
  bounded prec emax ma ea = true -> bounded prec emax mb eb = true ->
  (eb < ea \/ (eb = ea /\ Zpos mb <= Zpos ma))%Z ->
  (Zpos mb * 2 ^ (eb - Z.min ea eb) <= Zpos ma * 2 ^ (ea - Z.min ea eb))%Z.
Proof.
  intros Ha Hb H.
  apply bounded_digits in Ha. apply bounded_digits in Hb.
  destruct Ha as (Ha1 & Ha2 & Ha3). destruct Hb as (Hb1 & Hb2 & Hb3).
  destruct H as [H|[H1 H2]].
  - rewrite Z.min_r by lia.
    replace (eb - eb)%Z with 0%Z by lia. rewrite Z.pow_0_r, Z.mul_1_r.
    specialize (Ha3 ltac:(lia)).
    assert (2 ^ 1 <= 2 ^ (ea - eb))%Z by (apply Z.pow_le_mono_r; lia).
    change prec with 53%Z in *.
    change (2 ^ 53)%Z with (2 ^ (53 - 1) * 2 ^ 1)%Z in Hb2.
    nia.
  - subst eb. rewrite Z.min_id.
    replace (ea - ea)%Z with 0%Z by lia. rewrite Z.pow_0_r. lia.
Qed.

(** *** Order and subtraction *)

Lemma signed_not_negative x : sf_signed false x -> sf_not_negative x.
Proof. destruct x as [s|s| |s m e]; simpl; intros H; subst; auto. Qed.

Lemma not_negative_ltb x s : sf_not_negative x -> SFltb x (S754_zero s) = false.
Proof. destruct x as [?|[|]| |[|] m e]; simpl; intros H; auto; contradiction. Qed.

Lemma not_negative_leb x :
  sf_not_negative x -> x <> S754_nan -> SFleb (S754_zero false) x = true.
Proof.
  destruct x as [?|[|]| |[|] m e]; simpl; intros H N; auto;
    try contradiction; congruence.
Qed.

Lemma leb_not_negative x s :
  SFleb (S754_zero s) x = true -> sf_not_negative x /\ x <> S754_nan.
Proof.
  destruct x as [?|[|]| |[|] m e]; simpl; intros H; split;
    auto; discriminate.
Qed.

Lemma aligned_nonneg m e ez : (0 <= Zpos (fst (shl_align m e ez)))%Z.
Proof. lia. Qed.

Lemma sub_mantissa_nonneg sa ma ea sb mb eb :
  bounded prec emax ma ea = true -> bounded prec emax mb eb = true ->
  SFltb (S754_finite sa ma ea) (S754_finite sb mb eb) = false ->
  (0 <= cond_Zopp sa (Zpos (fst (shl_align ma ea (Z.min ea eb))))
        - cond_Zopp sb (Zpos (fst (shl_align mb eb (Z.min ea eb)))))%Z.
Proof.
  intros Ha Hb H.
  pose proof (aligned_le ma ea mb eb Ha Hb) as Hab.
  pose proof (aligned_le mb eb ma ea Hb Ha) as Hba.
  rewrite (Z.min_comm eb ea) in Hba.
  rewrite !shl_align_fst by lia.
  unfold SFltb, SFcompare in H.
  change (Pos.compare_cont Eq ma mb) with (Pos.compare ma mb) in H.
  destruct sa, sb; unfold cond_Zopp; try discriminate H.
  - destruct (Z.compare_spec ea eb) as [E|E|E]; try discriminate H.
    + destruct (Pos.compare_spec ma mb) as [F|F|F]; try discriminate H.
      * subst. lia.
      * specialize (Hba ltac:(lia)). lia.
    + specialize (Hba ltac:(lia)). lia.
  - lia.
  - destruct (Z.compare_spec ea eb) as [E|E|E]; try discriminate H.
    + destruct (Pos.compare_spec ma mb) as [F|F|F]; try discriminate H.
      * subst. lia.
      * specialize (Hab ltac:(lia)). lia.
    + specialize (Hab ltac:(lia)). lia.
Qed.

(** [a < b] fails: then [a - b], where it is a number, is not negative. *)
Lemma SFsub_not_negative a b :
  valid_binary a = true -> valid_binary b = true ->
  SFltb a b = false -> sf_not_negative (SF64sub a b).
Proof.
  intros Va Vb H.
  destruct a as [[|]|[|]| |sa ma ea], b as [[|]|[|]| |sb mb eb];
    try (unfold SF64sub; simpl in *; auto; discriminate).
  - destruct sb; [exact I | discriminate H].
  - destruct sb; [exact I | discriminate H].
  - destruct sa; [discriminate H | exact I].
  - destruct sa; [discriminate H | exact I].
  - apply signed_not_negative. unfold SF64sub, SFsub.
    apply binary_normalize_nonneg.
    apply sub_mantissa_nonneg; assumption.
Qed.

(** The difference of two finite floats is a number. *)
Lemma SFsub_finite_not_nan a b :
  match a with S754_zero _ | S754_finite _ _ _ => True | _ => False end ->
  match b with S754_zero _ | S754_finite _ _ _ => True | _ => False end ->
  SF64sub a b <> S754_nan.
Proof.
  destruct a as [sa|sa| |sa ma ea], b as [sb|sb| |sb mb eb];
    try contradiction; intros _ _; unfold SF64sub, SFsub.
  - destruct sa, sb; discriminate.
  - discriminate.
  - discriminate.
  - unfold binary_normalize.
    destruct (_ - _)%Z as [|p|p]; [discriminate| |];
      match goal with
      | |- binary_round _ _ ?s ?m ?e <> _ =>
          pose proof (binary_round_signed s m e) as S;
          destruct (binary_round prec emax s m e);
          [discriminate|discriminate|contradiction|discriminate]
      end.
Qed.

Lemma SFcompare_antisym a b :
  SFcompare a b = option_map CompOpp (SFcompare b a).
Proof.
  destruct a as [sa|sa| |sa ma ea], b as [sb|sb| |sb mb eb]; simpl;
    try reflexivity;
    try (destruct sa; try destruct sb; reflexivity).
  change (Pos.compare_cont Eq ma mb) with (Pos.compare ma mb).
  change (Pos.compare_cont Eq mb ma) with (Pos.compare mb ma).
  rewrite (Z.compare_antisym ea eb), (Pos.compare_antisym ma mb).
  destruct sa, sb; simpl; try reflexivity;
    destruct (ea ?= eb)%Z; simpl; try reflexivity;
    destruct (ma ?= mb)%positive; reflexivity.
Qed.

Lemma SFleb_not_ltb a b : SFleb b a = true -> SFltb a b = false.
Proof.
  unfold SFleb, SFltb. rewrite (SFcompare_antisym a b).
  destruct (SFcompare b a) as [[| |]|]; simpl; congruence.
Qed.

(** *** Multiplication by a positive finite float *)

Lemma SFmul_not_negative x t :
  SFleb (S754_zero false) x = true ->
  SFltb (S754_zero false) t = true ->
  match t with S754_infinity _ => False | _ => True end ->
  SFleb (S754_zero false) (SF64mul x t) = true.
Proof.
  intros Hx Ht Hf.
  destruct t as [st|st| |st mt et]; simpl in Ht; try discriminate Ht;
    try contradiction.
  destruct st; [discriminate Ht|].
  destruct x as [sx|sx| |sx mx ex]; simpl in Hx; try discriminate Hx.
  - reflexivity.
  - destruct sx; [discriminate Hx|]. reflexivity.
  - destruct sx; [discriminate Hx|]. unfold SF64mul, SFmul.
    apply not_negative_leb.
    + apply signed_not_negative, binary_round_aux_signed. lia.
    + intros N.
      pose proof (binary_round_aux_signed (xorb false false)
                    (Zpos (mx * mt)) (ex + et) loc_Exact ltac:(lia)) as S.
      rewrite N in S. exact S.
Qed.

(** *** Primitive floats *)

Lemma Prim2SF_zero : Prim2SF 0 = S754_zero false.
Proof. reflexivity. Qed.

Lemma is_finite_spec x : is_finite x = true -> sf_finite (Prim2SF x).
Proof.
  unfold is_finite, is_nan, is_infinity.
  rewrite !FloatAxioms.eqb_spec, FloatAxioms.abs_spec.
  change (Prim2SF infinity) with (S754_infinity false).
  destruct (Prim2SF x) as [s|s| |s m e]; simpl; auto; try discriminate.
  destruct s; discriminate.
Qed.

Lemma ltb_sub a b : (a <? b) = false -> (a - b <? 0) = false.
Proof.
  rewrite !FloatAxioms.ltb_spec, FloatAxioms.sub_spec, Prim2SF_zero. intros H.
  apply not_negative_ltb, SFsub_not_negative;
    auto using Prim2SF_valid.
Qed.

Lemma leb_sub a b :
  is_finite a = true -> is_finite b = true ->
  (b <=? a) = true -> (0 <=? a - b) = true.
Proof.
  intros Fa Fb. rewrite !FloatAxioms.leb_spec, FloatAxioms.sub_spec, Prim2SF_zero. intros H.
  apply not_negative_leb.
  - apply SFsub_not_negative; auto using Prim2SF_valid, SFleb_not_ltb.
  - apply SFsub_finite_not_nan; apply is_finite_spec; assumption.
Qed.

Lemma leb_mul x t :
  (0 <=? x) = true -> (0 <? t) = true -> is_finite t = true ->
  (0 <=? x * t) = true.
Proof.
  rewrite !FloatAxioms.leb_spec, FloatAxioms.ltb_spec, FloatAxioms.mul_spec, Prim2SF_zero. intros Hx Ht Ft.
  apply SFmul_not_negative; auto.
  apply is_finite_spec in Ft. destruct (Prim2SF t); simpl in *; auto.
Qed.

Lemma leb_zero_not_ltb d : (0 <=? d) = true -> (d <? 0) = false.
Proof.
  rewrite FloatAxioms.leb_spec, FloatAxioms.ltb_spec, Prim2SF_zero. apply SFleb_not_ltb.
Qed.

Lemma ltb_zero_abs d : (d <? 0) = true -> (0 <=? abs d) = true.
Proof.
  rewrite FloatAxioms.leb_spec, FloatAxioms.ltb_spec, FloatAxioms.abs_spec, Prim2SF_zero.
  destruct (Prim2SF d) as [s|s| |s m e]; simpl; auto.
Qed.

End FloatFacts.

(** ** Floats: sums, quotients and the sign of a difference *)

Module FloatArith.

Import FloatFacts.
Local Open Scope float_scope.

(** *** Addition as subtraction of the opposite *)

Lemma cond_Zopp_negb s m : cond_Zopp (negb s) m = (- cond_Zopp s m)%Z.
Proof. destruct s; simpl; lia. Qed.

Lemma SFadd_sub_opp x y : SF64add x y = SF64sub y (SFopp x).
Proof.
  unfold SF64add, SF64sub.
  destruct x as [[|]|[|]| |sx mx ex], y as [[|]|[|]| |sy my ey];
    try reflexivity.
  - simpl. rewrite negb_involutive. reflexivity.
  - simpl. rewrite negb_involutive. reflexivity.
  - unfold SFadd, SFsub, SFopp.
    rewrite cond_Zopp_negb, (Z.min_comm ey ex).
    f_equal. lia.
Qed.

Lemma SFopp_valid x : valid_binary x = true -> valid_binary (SFopp x) = true.
Proof. destruct x; simpl; auto. Qed.

(** [m] is at least [- d]: then [d + m] is not negative. *)
Lemma add_not_ltb d m : (m <? - d) = false -> (d + m <? 0) = false.
Proof.
  rewrite !FloatAxioms.ltb_spec, FloatAxioms.add_spec, FloatAxioms.opp_spec,
    Prim2SF_zero.
  intros H. rewrite SFadd_sub_opp.
  apply not_negative_ltb, SFsub_not_negative;
    auto using Prim2SF_valid, SFopp_valid.
Qed.

Lemma add_nonneg_of_leb d m :
  is_finite m = true -> (- d <=? m) = true -> (0 <=? d + m) = true.
Proof.
  intros Fm H.
  pose proof (is_finite_spec _ Fm) as Sm.
  revert H.
  rewrite !FloatAxioms.leb_spec, FloatAxioms.add_spec, FloatAxioms.opp_spec,
    Prim2SF_zero.
  intros H. rewrite SFadd_sub_opp.
  apply not_negative_leb.
  - apply SFsub_not_negative; auto using Prim2SF_valid, SFopp_valid.
    apply SFleb_not_ltb, H.
  - destruct (Prim2SF d) as [s|[|]| |s md ed] eqn:Ed.
    + apply SFsub_finite_not_nan; [exact Sm|exact I].
    + destruct (Prim2SF m); simpl in *; try contradiction; discriminate H.
    + destruct (Prim2SF m); simpl in *; try contradiction; discriminate.
    + destruct (Prim2SF m); simpl in *; try contradiction; discriminate H.
    + apply SFsub_finite_not_nan; [exact Sm|exact I].
Qed.

(** *** Sums and quotients of non-negative floats *)

Lemma SFadd_nonneg x y :
  SFleb (S754_zero false) x = true -> SFleb (S754_zero false) y = true ->
  SFleb (S754_zero false) (SF64add x y) = true.
Proof.
  intros Hx Hy.
  destruct x as [[|]|[|]| |[|] mx ex]; simpl in Hx; try discriminate Hx;
    destruct y as [[|]|[|]| |[|] my ey]; simpl in Hy; try discriminate Hy;
    try reflexivity.
  unfold SF64add, SFadd, cond_Zopp.
  pose proof (binary_normalize_nonneg
                (Zpos (fst (shl_align mx ex (Z.min ex ey)))
                 + Zpos (fst (shl_align my ey (Z.min ex ey))))
                (Z.min ex ey) ltac:(lia)) as S.
  apply not_negative_leb.
  - apply signed_not_negative, S.
  - intros N. rewrite N in S. exact S.
Qed.

Lemma div_eucl_nonneg a b :
  (0 <= a)%Z -> (0 < b)%Z -> (0 <= fst (Z.div_eucl a b))%Z.
Proof.
  intros Ha Hb. pose proof (Z.div_pos a b Ha Hb) as H.
  unfold Z.div in H. destruct (Z.div_eucl a b). exact H.
Qed.

Lemma SFdiv_nonneg x y :
  SFleb (S754_zero false) x = true ->
  match y with S754_finite false _ _ => True | _ => False end ->
  SFleb (S754_zero false) (SF64div x y) = true.
Proof.
  intros Hx Hy.
  destruct y as [?|?| |[|] my ey]; try contradiction.
  destruct x as [[|]|[|]| |[|] mx ex]; simpl in Hx; try discriminate Hx;
    try reflexivity.
  unfold SF64div, SFdiv.
  destruct (SFdiv_core_binary prec emax (Zpos mx) ex (Zpos my) ey)
    as [[mz ez] lz] eqn:E.
  assert (Hmz : (0 <= mz)%Z).
  { unfold SFdiv_core_binary in E.
    match type of E with
    | (let '(q, r) := Z.div_eucl ?a ?b in _) = _ =>
        pose proof (div_eucl_nonneg a b) as Hq;
        destruct (Z.div_eucl a b) as [q r]
    end.
    injection E as <- _ _. apply Hq; [|lia].
    destruct (_ - _ - _)%Z; try lia.
    apply Z.shiftl_nonneg. lia. }
  pose proof (binary_round_aux_signed (xorb false false) mz ez lz Hmz) as S.
  apply not_negative_leb.
  - apply signed_not_negative, S.
  - intros N. rewrite N in S. exact S.
Qed.

Lemma add_nonneg x y :
  (0 <=? x) = true -> (0 <=? y) = true -> (0 <=? x + y) = true.
Proof.
  rewrite !FloatAxioms.leb_spec, FloatAxioms.add_spec, Prim2SF_zero.
  apply SFadd_nonneg.
Qed.

Lemma div_million_nonneg x : (0 <=? x) = true -> (0 <=? x / 1000000) = true.
Proof.
  rewrite !FloatAxioms.leb_spec, FloatAxioms.div_spec, Prim2SF_zero.
  intros H. apply SFdiv_nonneg; [exact H|].
  vm_compute. exact I.
Qed.

(** The absolute value of a negative float is positive. *)
Lemma abs_pos d : (d <? 0) = true -> (0 <? abs d) = true.
Proof.
  rewrite !FloatAxioms.ltb_spec, FloatAxioms.abs_spec, Prim2SF_zero.
  destruct (Prim2SF d) as [s|[|]| |[|] m e]; simpl; auto.
Qed.

End FloatArith.

Module FloatStrict.

Import FloatFacts.
Local Open Scope float_scope.

(** *** Rounding a non-zero mantissa at an exponent from [emin] on does not
    give zero *)

Lemma shr_1_lower j mrs :
  (0 <= j)%Z -> (2 ^ (1 + j) <= shr_m mrs)%Z -> (2 ^ j <= shr_m (shr_1 mrs))%Z.
Proof.
  intros Hj. rewrite Z.pow_add_r, Z.pow_1_r by lia.
  pose proof (Z.pow_pos_nonneg 2 j ltac:(lia) Hj) as Hp.
  remember (2 ^ j)%Z as P.
  destruct mrs as [m r s]; cbn [shr_1 shr_m].
  destruct m as [|[p|p|]|[p|p|]]; cbn [shr_m]; lia.
Qed.

Lemma iter_shr_1_lower p : forall j mrs,
  (0 <= j)%Z -> (2 ^ (Zpos p + j) <= shr_m mrs)%Z ->
  (2 ^ j <= shr_m (iter_pos shr_1 p mrs))%Z.
Proof.
  induction p as [p IH|p IH|]; intros j mrs Hj H; simpl.
  - apply IH; [exact Hj|]. apply IH; [lia|].
    apply shr_1_lower; [lia|].
    replace (1 + (Zpos p + (Zpos p + j)))%Z with (Zpos p~1 + j)%Z by lia.
    exact H.
  - apply IH; [exact Hj|]. apply IH; [lia|].
    replace (Zpos p + (Zpos p + j))%Z with (Zpos p~0 + j)%Z by lia.
    exact H.
  - apply shr_1_lower; assumption.
Qed.

Lemma shr_fexp_pos m e l :
  (0 < m)%Z -> (emin <= e)%Z ->
  (0 < shr_m (fst (shr_fexp prec emax m e l))
   /\ emin <= snd (shr_fexp prec emax m e l))%Z.
Proof.
  intros Hm He. unfold shr_fexp, shr.
  destruct m as [|p|p]; try lia. simpl Zdigits2.
  pose proof (digits2_pos_bounds p) as [Hl _].
  unfold fexp. change (SpecFloat.emin prec emax) with (-1074)%Z in *.
  change prec with 53%Z.
  destruct (Z.max (Zpos (digits2_pos p) + e - 53) (-1074) - e)%Z
    as [|q|q] eqn:E; simpl; rewrite ?shr_record_of_loc_m; try lia.
  split; [|lia].
  apply Z.lt_le_trans with (2 ^ 52)%Z; [reflexivity|].
  apply iter_shr_1_lower; [lia|]. rewrite shr_record_of_loc_m.
  replace (Zpos q + 52)%Z with (Zpos (digits2_pos p) - 1)%Z by lia.
  exact Hl.
Qed.

Lemma round_nearest_even_pos m l : (0 < m -> 0 < round_nearest_even m l)%Z.
Proof.
  intros H. destruct l as [|[| |]]; simpl; try lia.
  destruct (Z.even m); lia.
Qed.

Lemma binary_round_aux_neg m e l :
  (0 < m)%Z -> (emin <= e)%Z ->
  SFltb (binary_round_aux prec emax true m e l) (S754_zero false) = true.
Proof.
  intros Hm He. unfold binary_round_aux.
  pose proof (shr_fexp_pos m e l Hm He) as [H1 H1e].
  destruct (shr_fexp prec emax m e l) as [mrs' e']. simpl in H1, H1e.
  pose proof (shr_fexp_pos _ e' loc_Exact
                (round_nearest_even_pos _ (loc_of_shr_record mrs') H1) H1e)
    as [H2 _].
  destruct (shr_fexp prec emax _ e' loc_Exact) as [mrs'' e'']. simpl in H2.
  destruct (shr_m mrs''); try lia.
  destruct (Z.leb _ _); reflexivity.
Qed.

Lemma binary_round_neg m e :
  (emin <= e)%Z ->
  SFltb (binary_round prec emax true m e) (S754_zero false) = true.
Proof.
  intros He. unfold binary_round.
  destruct (shl_align m e _) as [mz ez] eqn:E.
  apply binary_round_aux_neg; [lia|].
  unfold shl_align in E.
  destruct (_ - e)%Z eqn:D; injection E as <- <-; try exact He.
  unfold fexp. change (SpecFloat.emin prec emax) with (-1074)%Z. lia.
Qed.

(** *** A smaller canonical float has the smaller aligned mantissa *)

Lemma aligned_lt ma ea mb eb :
  bounded prec emax ma ea = true -> bounded prec emax mb eb = true ->
  (ea < eb \/ (ea = eb /\ Zpos ma < Zpos mb))%Z ->
  (Zpos ma * 2 ^ (ea - Z.min ea eb) < Zpos mb * 2 ^ (eb - Z.min ea eb))%Z.
Proof.
  intros Ha Hb H.
  apply bounded_digits in Ha. apply bounded_digits in Hb.
  destruct Ha as (Ha1 & Ha2 & Ha3). destruct Hb as (Hb1 & Hb2 & Hb3).
  destruct H as [H|[H1 H2]].
  - rewrite Z.min_l by lia.
    replace (ea - ea)%Z with 0%Z by lia. rewrite Z.pow_0_r, Z.mul_1_r.
    specialize (Hb3 ltac:(lia)).
    assert (2 ^ 1 <= 2 ^ (eb - ea))%Z by (apply Z.pow_le_mono_r; lia).
    change prec with 53%Z in *.
    change (2 ^ 53)%Z with (2 ^ (53 - 1) * 2 ^ 1)%Z in Ha2.
    nia.
  - subst eb. rewrite Z.min_id.
    replace (ea - ea)%Z with 0%Z by lia. rewrite Z.pow_0_r. lia.
Qed.

Lemma sub_mantissa_neg sa ma ea sb mb eb :
  bounded prec emax ma ea = true -> bounded prec emax mb eb = true ->
  SFltb (S754_finite sa ma ea) (S754_finite sb mb eb) = true ->
  (cond_Zopp sa (Zpos (fst (shl_align ma ea (Z.min ea eb))))
   - cond_Zopp sb (Zpos (fst (shl_align mb eb (Z.min ea eb)))) < 0)%Z.
Proof.
  intros Ha Hb H.
  pose proof (aligned_lt ma ea mb eb Ha Hb) as Hab.
  pose proof (aligned_lt mb eb ma ea Hb Ha) as Hba.
  rewrite (Z.min_comm eb ea) in Hba.
  rewrite !shl_align_fst by lia.
  unfold SFltb, SFcompare in H.
  change (Pos.compare_cont Eq ma mb) with (Pos.compare ma mb) in H.
  assert (0 < Zpos ma * 2 ^ (ea - Z.min ea eb))%Z
    by (apply Z.mul_pos_pos; [lia|apply Z.pow_pos_nonneg; lia]).
  assert (0 < Zpos mb * 2 ^ (eb - Z.min ea eb))%Z
    by (apply Z.mul_pos_pos; [lia|apply Z.pow_pos_nonneg; lia]).
  destruct sa, sb; unfold cond_Zopp; try discriminate H.
  - destruct (Z.compare_spec ea eb) as [E|E|E]; try discriminate H.
    + destruct (Pos.compare_spec ma mb) as [F|F|F]; try discriminate H.
      specialize (Hba ltac:(lia)). lia.
    + specialize (Hba ltac:(lia)). lia.
  - lia.
  - destruct (Z.compare_spec ea eb) as [E|E|E]; try discriminate H.
    + destruct (Pos.compare_spec ma mb) as [F|F|F]; try discriminate H.
      specialize (Hab ltac:(lia)). lia.
    + specialize (Hab ltac:(lia)). lia.
Qed.

(** [a < b]: then [a - b] is negative; the difference of two floats never
    rounds to zero. *)
Lemma SFsub_negative a b :
  valid_binary a = true -> valid_binary b = true ->
  SFltb a b = true -> SFltb (SF64sub a b) (S754_zero false) = true.
Proof.
  intros Va Vb H.
  destruct a as [[|]|[|]| |sa ma ea], b as [[|]|[|]| |sb mb eb];
    try (unfold SF64sub; simpl in *; auto; discriminate).
  - destruct sb; [discriminate H | reflexivity].
  - destruct sb; [discriminate H | reflexivity].
  - unfold SF64sub, SFsub.
    pose proof (sub_mantissa_neg sa ma ea sb mb eb Va Vb H) as D.
    destruct (_ - _)%Z as [|p|p] eqn:E; try lia.
    unfold binary_normalize. apply binary_round_neg.
    apply bounded_digits in Va. apply bounded_digits in Vb. lia.
Qed.

Lemma ltb_sub_true a b : (a <? b) = true -> (a - b <? 0) = true.
Proof.
  rewrite !FloatAxioms.ltb_spec, FloatAxioms.sub_spec, Prim2SF_zero.
  apply SFsub_negative; apply Prim2SF_valid.
Qed.

(** The sign test on the difference is the comparison of the operands. *)
Lemma sub_ltb_zero a b : (a - b <? 0) = (a <? b).
Proof.
  destruct (a <? b) eqn:E.
  - apply ltb_sub_true, E.
  - apply ltb_sub, E.
Qed.

End FloatStrict.

(** ** Floats: the sign of a product *)

Module FloatProduct.

(** A product of two floats of the same sign is [>= 0] unless it is zero
    times infinity, which is a NaN. *)
Lemma SFmul_nonneg x t :
  (SFleb (S754_zero false) x = true /\ SFleb (S754_zero false) t = true)
  \/ (SFleb x (S754_zero false) = true /\ SFleb t (S754_zero false) = true) ->
  sf_finite x \/ SFeqb t (S754_zero false) = false ->
  sf_finite t \/ SFeqb x (S754_zero false) = false ->
  SFleb (S754_zero false) (SF64mul x t) = true.
Proof.
  intros Hs Fx Ft.
  assert (R : forall mx ex mt et,
             SFleb (S754_zero false)
               (SF64mul (S754_finite false mx ex) (S754_finite false mt et))
             = true).
  { intros mx ex mt et. unfold SF64mul, SFmul.
    apply FloatFacts.not_negative_leb.
    - apply FloatFacts.signed_not_negative,
        FloatFacts.binary_round_aux_signed. lia.
    - intros N.
      pose proof (FloatFacts.binary_round_aux_signed (xorb false false)
                    (Zpos (mx * mt)) (ex + et) loc_Exact ltac:(lia)) as S.
      rewrite N in S. exact S. }
  destruct x as [sx|sx| |sx mx ex], t as [st|st| |st mt et];
    try (destruct Fx as [[]|Fx]; discriminate Fx);
    try (destruct Ft as [[]|Ft]; discriminate Ft);
    try (destruct Hs as [[A B]|[A B]]; discriminate);
    try (destruct sx, st; reflexivity);
    destruct sx, st;
    try (destruct Hs as [[A B]|[A B]]; discriminate);
    try reflexivity; apply R.
Qed.

Lemma leb_mul_nonneg x t :
  ((0 <=? x) = true /\ (0 <=? t) = true)
  \/ ((x <=? 0) = true /\ (t <=? 0) = true) ->
  is_finite x = true \/ (t =? 0) = false ->
  is_finite t = true \/ (x =? 0) = false ->
  (0 <=? x * t) = true.
Proof.
  rewrite !FloatAxioms.leb_spec, !FloatAxioms.eqb_spec,
    FloatAxioms.mul_spec, FloatFacts.Prim2SF_zero.
  intros Hs Fx Ft. apply SFmul_nonneg; auto.
  - destruct Fx as [Fx|Fx]; [left; apply FloatFacts.is_finite_spec, Fx|auto].
  - destruct Ft as [Ft|Ft]; [left; apply FloatFacts.is_finite_spec, Ft|auto].
Qed.

End FloatProduct.

(** ** Formatting to three decimals *)

Module PyFacts.

Local Open Scope string_scope.

Lemma div_half_even_nearest a b :
  (0 <= a)%Z -> (0 < b)%Z ->
  (0 <= Py.div_half_even a b
   /\ Z.abs (2 * (Py.div_half_even a b * b - a)) <= b)%Z.
Proof.
  intros Ha Hb. unfold Py.div_half_even.
  pose proof (Z.div_mod a b ltac:(lia)) as E.
  pose proof (Z.mod_pos_bound a b Hb) as [R0 R1].
  pose proof (Z.div_pos a b Ha Hb) as Q.
  remember (a / b)%Z as q. remember (a mod b)%Z as r.
  destruct (Z.compare_spec (2 * r) b) as [C|C|C];
    [destruct (Z.even q)| |]; split; nia.
Qed.

(** A number below 1000 is printed with exactly three digits. *)
Lemma zfill_3_length r :
  (0 <= r < 1000)%Z -> String.length (Py.zfill 3 r) = 3%nat.
Proof.
  intros H.
  assert (A : forallb (fun k => Nat.eqb (String.length
                                           (Py.zfill 3 (Z.of_nat k))) 3)
                      (seq 0 1000) = true) by (vm_compute; reflexivity).
  rewrite forallb_forall in A.
  specialize (A (Z.to_nat r)). rewrite Z2Nat.id in A by lia.
  apply Nat.eqb_eq, A, in_seq. lia.
Qed.

(** [format(x, ".3f")] of a finite [x = (-1)^s * m * 2^e]: the sign, then
    the integer [n] nearest to [1000 * |x|] written as [n // 1000], a point
    and the three digits of [n % 1000]. *)
Lemma format_3f_finite x s m e :
  Prim2SF x = S754_finite s m e ->
  exists n,
    nearest_thousandth m e n /\ (0 <= n)%Z
    /\ Py.format_3f x
       = Py.sign_str s ++ Py.str_of_Z (n / 1000) ++ "."
         ++ Py.zfill 3 (n mod 1000)
    /\ String.length (Py.zfill 3 (n mod 1000)) = 3%nat.
Proof.
  intros E. unfold Py.format_3f. rewrite E.
  assert (L : forall n, String.length (Py.zfill 3 (n mod 1000)) = 3%nat)
    by (intros n; apply zfill_3_length, Z.mod_pos_bound; lia).
  destruct e as [|p|p].
  - exists (Zpos m * 1000 * 2 ^ 0)%Z. repeat split; auto; simpl; lia.
  - exists (Zpos m * 1000 * 2 ^ Zpos p)%Z.
    pose proof (Z.pow_pos_nonneg 2 (Zpos p) ltac:(lia) ltac:(lia)).
    repeat split; auto; unfold nearest_thousandth; nia.
  - pose proof (Z.pow_pos_nonneg 2 (Zpos p) ltac:(lia) ltac:(lia)) as Hp.
    destruct (div_half_even_nearest (Zpos m * 1000) (2 ^ Zpos p)
                ltac:(lia) Hp) as [N0 N1].
    exists (Py.div_half_even (Zpos m * 1000) (2 ^ Zpos p)).
    repeat split; auto. unfold nearest_thousandth.
    replace (1000 * Zpos m)%Z with (Zpos m * 1000)%Z by lia. exact N1.
Qed.

(** Zeros, infinities and NaN print the same way in both fields, but for
    the digits of zero. *)
Lemma format_special x :
  match Prim2SF x with
  | S754_zero s =>
      Py.format_3f x = Py.sign_str s ++ "0.000"
      /\ Py.repr x = Py.sign_str s ++ "0.0"
  | S754_infinity s =>
      Py.format_3f x = Py.sign_str s ++ "inf"
      /\ Py.repr x = Py.sign_str s ++ "inf"
  | S754_nan => Py.format_3f x = "nan" /\ Py.repr x = "nan"
  | S754_finite _ _ _ => True
  end.
Proof. unfold Py.format_3f, Py.repr. destruct (Prim2SF x); auto. Qed.

End PyFacts.

(** ** [repr]: the digits read back as the float *)

Module ReprFacts.

Local Open Scope Z_scope.

Lemma pow10_pos k : 0 < 10 ^ Z.max 0 k.
Proof. apply Z.pow_pos_nonneg; lia. Qed.

Lemma scale_pos : 0 < 2 ^ 1076.
Proof. apply Z.pow_pos_nonneg; lia. Qed.

(** Both comparisons of a decimal are the comparison of two products. *)
Lemma cmp_dec_products c k v :
  Py.cmp_dec c k v
  = (c * 10 ^ Z.max 0 k * 2 ^ 1076 ?= v * 10 ^ Z.max 0 (- k)).
Proof.
  unfold Py.cmp_dec, Py.repr_scale.
  destruct k as [|p|p]; cbn [Z.max Z.opp Z.compare];
    rewrite ?Z.pow_0_r, ?Z.mul_1_r; reflexivity.
Qed.

Lemma floor_dec_products v k :
  Py.floor_dec v k
  = v * 10 ^ Z.max 0 (- k) / (10 ^ Z.max 0 k * 2 ^ 1076).
Proof.
  unfold Py.floor_dec, Py.repr_scale.
  destruct k as [|p|p]; cbn [Z.max Z.opp Z.compare];
    rewrite ?Z.pow_0_r, ?Z.mul_1_r, ?Z.mul_1_l; reflexivity.
Qed.

(** The floor is the decimal just below the value. *)
Lemma floor_dec_bounds v k :
  let c := Py.floor_dec v k in
  c * 10 ^ Z.max 0 k * 2 ^ 1076 <= v * 10 ^ Z.max 0 (- k)
  /\ v * 10 ^ Z.max 0 (- k) < (c + 1) * 10 ^ Z.max 0 k * 2 ^ 1076.
Proof.
  intros c. subst c. rewrite floor_dec_products.
  pose proof (pow10_pos k) as A. pose proof scale_pos as S.
  set (a := 10 ^ Z.max 0 k) in *. set (w := v * 10 ^ Z.max 0 (- k)).
  assert (P : 0 < a * 2 ^ 1076) by (apply Z.mul_pos_pos; assumption).
  pose proof (Z.div_mod w (a * 2 ^ 1076) ltac:(lia)) as E.
  pose proof (Z.mod_pos_bound w (a * 2 ^ 1076) P) as [R0 R1].
  set (q := w / (a * 2 ^ 1076)) in *.
  replace (q * a * 2 ^ 1076) with (a * 2 ^ 1076 * q) by ring.
  replace ((q + 1) * a * 2 ^ 1076) with (a * 2 ^ 1076 * q + a * 2 ^ 1076)
    by ring.
  lia.
Qed.

(** A decimal the test [inside] accepts is within the interval. *)
Lemma inside_within even_m lo hi d k :
  Py.inside even_m lo hi d k = true -> decimal_within even_m lo hi d k.
Proof.
  unfold Py.inside, decimal_within. rewrite !cmp_dec_products.
  intros H. apply andb_prop in H. destruct H as [L U].
  destruct (Z.compare_spec (d * 10 ^ Z.max 0 k * 2 ^ 1076)
              (lo * 10 ^ Z.max 0 (- k))) as [E|E|E];
    destruct (Z.compare_spec (d * 10 ^ Z.max 0 k * 2 ^ 1076)
                (hi * 10 ^ Z.max 0 (- k))) as [F|F|F];
    try discriminate L; try discriminate U;
    destruct even_m; try discriminate L; try discriminate U; lia.
Qed.


(** Around a value strictly inside the interval, one of the two decimals
    next to it is inside as soon as their spacing is below the width. *)
Lemma candidate_inside even_m lo hi v k :
  lo < v < hi ->
  10 ^ Z.max 0 k * 2 ^ 1076 < (hi - lo) * 10 ^ Z.max 0 (- k) ->
  Py.inside even_m lo hi (Py.floor_dec v k) k = true
  \/ Py.inside even_m lo hi (Py.floor_dec v k + 1) k = true.
Proof.
  intros [Hl Hh] Hw.
  destruct (floor_dec_bounds v k) as [F1 F2].
  set (c := Py.floor_dec v k) in *.
  pose proof (pow10_pos (- k)) as B.
  assert (L : lo * 10 ^ Z.max 0 (- k) < v * 10 ^ Z.max 0 (- k))
    by (apply Z.mul_lt_mono_pos_r; assumption).
  assert (H : v * 10 ^ Z.max 0 (- k) < hi * 10 ^ Z.max 0 (- k))
    by (apply Z.mul_lt_mono_pos_r; assumption).
  unfold Py.inside. rewrite !cmp_dec_products.
  assert (E2 : (c * 10 ^ Z.max 0 k * 2 ^ 1076
                ?= hi * 10 ^ Z.max 0 (- k)) = Lt)
    by (apply Z.compare_lt_iff; lia).
  assert (E3 : ((c + 1) * 10 ^ Z.max 0 k * 2 ^ 1076
                ?= lo * 10 ^ Z.max 0 (- k)) = Gt)
    by (apply Z.compare_gt_iff; lia).
  rewrite E2, E3, !andb_true_r, !andb_true_l.
  destruct (Z.compare_spec (c * 10 ^ Z.max 0 k * 2 ^ 1076)
              (lo * 10 ^ Z.max 0 (- k))) as [E1|E1|E1];
    destruct (Z.compare_spec ((c + 1) * 10 ^ Z.max 0 k * 2 ^ 1076)
                (hi * 10 ^ Z.max 0 (- k))) as [E4|E4|E4];
    destruct even_m; auto; exfalso; lia.
Qed.

(** What [shortest_digits] returns is inside the interval, unless no
    candidate of any length it tried was. *)
Lemma shortest_digits_result even_m lo hi v p : forall fuel n c k,
  Py.shortest_digits fuel n p even_m lo hi v = (c, k) ->
  Py.inside even_m lo hi c k = true
  \/ (k = p - (n + Z.of_nat fuel)
      /\ (fuel <> O ->
          Py.inside even_m lo hi (Py.floor_dec v (k + 1)) (k + 1) = false
          /\ Py.inside even_m lo hi (Py.floor_dec v (k + 1) + 1) (k + 1)
             = false)).
Proof.
  induction fuel as [|fuel IH]; intros n c k; cbn [Py.shortest_digits].
  - intros H. injection H as <- <-. right. split; [lia|]. intros N.
    destruct (N eq_refl).
  - destruct (Py.inside even_m lo hi (Py.floor_dec v (p - n)) (p - n))
      eqn:I1;
      destruct (Py.inside even_m lo hi (Py.floor_dec v (p - n) + 1) (p - n))
        eqn:I2.
    + destruct (Py.cmp_dec _ _ _); [destruct (Z.even _)| |];
        intros H; injection H as <- <-; auto.
    + intros H; injection H as <- <-; auto.
    + intros H; injection H as <- <-; auto.
    + intros H. destruct (IH _ _ _ H) as [In|[-> Hf]]; [auto|].
      right. split; [lia|]. intros _.
      destruct fuel as [|fuel'].
      * replace (p - (n + 1 + Z.of_nat 0) + 1) with (p - n) by lia. auto.
      * apply Hf. discriminate.
Qed.

(** The exponent search keeps [10 ^ (p - 1)] at or below the value. *)
Lemma dec_exponent_lower v : forall fuel p,
  Py.cmp_dec 1 (p - 1) v <> Gt ->
  Py.cmp_dec 1 (Py.dec_exponent fuel p v - 1) v <> Gt.
Proof.
  induction fuel as [|fuel IH]; intros p H; cbn [Py.dec_exponent].
  - exact H.
  - destruct (Py.cmp_dec 1 p v) eqn:E; try exact H;
      apply IH; replace (p + 1 - 1) with p by lia; congruence.
Qed.

Lemma cmp_dec_mono k w v :
  w <= v -> Py.cmp_dec 1 k w <> Gt -> Py.cmp_dec 1 k v <> Gt.
Proof.
  rewrite !cmp_dec_products. intros Hw H.
  pose proof (pow10_pos (- k)) as B.
  assert (w * 10 ^ Z.max 0 (- k) <= v * 10 ^ Z.max 0 (- k))
    by (apply Z.mul_le_mono_nonneg_r; lia).
  destruct (Z.compare_spec (1 * 10 ^ Z.max 0 k * 2 ^ 1076)
              (w * 10 ^ Z.max 0 (- k))); try (destruct (H eq_refl));
    destruct (Z.compare_spec (1 * 10 ^ Z.max 0 k * 2 ^ 1076)
                (v * 10 ^ Z.max 0 (- k))); try discriminate; lia.
Qed.

(** The starting point of the search is below the answer, for every binary
    exponent of a binary64 value. *)
Lemma start_below_power b :
  -1073 <= b <= 1024 ->
  Py.cmp_dec 1 ((b - 1) * 30103 / 100000 - 1) (2 ^ (b + 1075)) <> Gt.
Proof.
  intros H.
  assert (A : forallb
                (fun i =>
                   match Py.cmp_dec 1
                           ((Z.of_nat i - 1073 - 1) * 30103 / 100000 - 1)
                           (2 ^ (Z.of_nat i - 1073 + 1075)) with
                   | Gt => false
                   | _ => true
                   end) (seq 0 2098) = true) by (vm_compute; reflexivity).
  rewrite forallb_forall in A.
  specialize (A (Z.to_nat (b + 1073))).
  rewrite Z2Nat.id in A by lia.
  replace (b + 1073 - 1073) with b in A by lia.
  intros G. rewrite G in A. discriminate A. apply in_seq. lia.
Qed.

Lemma bounded_range m e :
  bounded prec emax m e = true ->
  -1074 <= e <= 971 /\ Zpos m < 2 ^ 53
  /\ -1073 <= Zpos (digits2_pos m) + e <= 1024.
Proof.
  intros H. pose proof (FloatFacts.bounded_digits m e H) as (He & Hm & _).
  unfold bounded in H. apply andb_prop in H. destruct H as [C H].
  apply Z.leb_le in H.
  unfold canonical_mantissa, fexp in C. apply Z.eqb_eq in C.
  change prec with 53 in *. change emax with 1024 in *.
  change (SpecFloat.emin 53 1024) with (-1074) in *.
  assert (0 < Zpos (digits2_pos m)) by lia.
  change (FloatOps.emin) with (-1074) in He.
  lia.
Qed.


Lemma pow10_shift k :
  10 ^ Z.max 0 k * 10 ^ Z.max 0 (- (k + 16)) * 10 ^ 16
  = 10 ^ Z.max 0 (k + 16) * 10 ^ Z.max 0 (- k).
Proof. rewrite <- !Z.pow_add_r by lia. f_equal. lia. Qed.

(** The value is strictly inside its rounding interval, which is wider
    than the value divided by [10 ^ 16]. *)
Lemma interval_width m e :
  bounded prec emax m e = true ->
  let v := Zpos m * 2 ^ (e + 1076) in
  let up := 2 ^ (e + 1075) in
  let down := if (Zpos m =? 2 ^ 52) && (-1074 <? e)
              then 2 ^ (e + 1074) else up in
  0 < v - down /\ v - down < v < v + up
  /\ v < (v + up - (v - down)) * 10 ^ 16
  /\ 2 ^ (Zpos (digits2_pos m) + e + 1075) <= v.
Proof.
  intros H v up down.
  destruct (bounded_range m e H) as (He & Hm & Hb).
  pose proof (FloatFacts.digits2_pos_bounds m) as [Dl _].
  assert (Q : 0 < 2 ^ (e + 1074)) by (apply Z.pow_pos_nonneg; lia).
  assert (Eu : up = 2 * 2 ^ (e + 1074)).
  { subst up. replace (e + 1075) with (Z.succ (e + 1074)) by lia.
    apply Z.pow_succ_r. lia. }
  assert (Ev : v = Zpos m * (4 * 2 ^ (e + 1074))).
  { subst v. replace (e + 1076) with (e + 1074 + 2) by lia.
    rewrite Z.pow_add_r by lia. change (2 ^ 2) with 4. ring. }
  assert (Ed : 2 ^ (Zpos (digits2_pos m) + e + 1075)
               = 2 ^ (Zpos (digits2_pos m) - 1) * (4 * 2 ^ (e + 1074))).
  { replace (Zpos (digits2_pos m) + e + 1075)
      with (Zpos (digits2_pos m) - 1 + (e + 1074 + 2)) by lia.
    rewrite !Z.pow_add_r by lia. change (2 ^ 2) with 4. ring. }
  change (2 ^ 53) with 9007199254740992 in Hm.
  change (10 ^ 16) with 10000000000000000.
  assert (Hd : down = up \/ (down = 2 ^ (e + 1074)
                             /\ Zpos m = 4503599627370496)).
  { subst down. destruct (Zpos m =? 2 ^ 52) eqn:E1; [|auto].
    destruct (-1074 <? e); [|auto]. right. split; [reflexivity|].
    apply Z.eqb_eq in E1. exact E1. }
  set (q := 2 ^ (e + 1074)) in *.
  assert (M : 1 <= Zpos m) by lia.
  repeat split.
  - destruct Hd as [-> | [-> _]]; nia.
  - destruct Hd as [-> | [-> _]]; lia.
  - lia.
  - destruct Hd as [-> | [-> Em]]; nia.
  - rewrite Ed, Ev. apply Z.mul_le_mono_nonneg_r; lia.
Qed.

(** With seventeen digits the spacing of the decimals is below the width
    of the interval. *)
Lemma spacing_17 m e p :
  bounded prec emax m e = true ->
  let v := Zpos m * 2 ^ (e + 1076) in
  let up := 2 ^ (e + 1075) in
  let down := if (Zpos m =? 2 ^ 52) && (-1074 <? e)
              then 2 ^ (e + 1074) else up in
  Py.cmp_dec 1 (p - 1) v <> Gt ->
  10 ^ Z.max 0 (p - 17) * 2 ^ 1076
  < (v + up - (v - down)) * 10 ^ Z.max 0 (- (p - 17)).
Proof.
  intros H v up down Hp.
  destruct (interval_width m e H) as (_ & _ & Hw & _).
  fold v up down in Hw. set (W := v + up - (v - down)) in *.
  rewrite cmp_dec_products in Hp.
  pose proof (pow10_shift (p - 17)) as I.
  replace (p - 17 + 16) with (p - 1) in I by lia.
  pose proof (pow10_pos (p - 17)) as PA.
  pose proof (pow10_pos (- (p - 17))) as PB.
  pose proof (pow10_pos (p - 1)) as PA1.
  pose proof (pow10_pos (- (p - 1))) as PB1.
  pose proof scale_pos as PS.
  set (A := 10 ^ Z.max 0 (p - 17)) in *.
  set (B := 10 ^ Z.max 0 (- (p - 17))) in *.
  set (A1 := 10 ^ Z.max 0 (p - 1)) in *.
  set (B1 := 10 ^ Z.max 0 (- (p - 1))) in *.
  set (S := 2 ^ 1076) in *.
  change (10 ^ 16) with 10000000000000000 in *.
  assert (H1 : A1 * S <= v * B1).
  { destruct (Z.compare_spec (1 * A1 * S) (v * B1));
      try lia. destruct (Hp eq_refl). }
  apply Z.nle_gt. intros C.
  assert (S1 : W * B * (B1 * 10000000000000000)
               <= A * S * (B1 * 10000000000000000))
    by (apply Z.mul_le_mono_nonneg_r; lia).
  assert (S2 : A1 * S * B <= v * B1 * B)
    by (apply Z.mul_le_mono_nonneg_r; lia).
  assert (S3 : v * (B * B1) < W * 10000000000000000 * (B * B1))
    by (apply Z.mul_lt_mono_pos_r; [apply Z.mul_pos_pos; assumption|lia]).
  assert (I' : A * S * (B1 * 10000000000000000) = A1 * S * B).
  { replace (A * S * (B1 * 10000000000000000))
      with (A * B1 * 10000000000000000 * S) by ring.
    rewrite I. ring. }
  lia.
Qed.

(** Dropping trailing zeros keeps the decimal. *)
Lemma strip_zeros_within closed lo hi : forall fuel c k c' k',
  Py.strip_zeros fuel c k = (c', k') ->
  0 < c -> decimal_within closed lo hi c k ->
  0 < c' /\ decimal_within closed lo hi c' k'.
Proof.
  induction fuel as [|fuel IH]; intros c k c' k'; cbn [Py.strip_zeros].
  - intros H. injection H as <- <-. auto.
  - destruct ((c mod 10 =? 0) && (0 <? c))%bool eqn:E.
    + apply andb_prop in E. destruct E as [E _]. apply Z.eqb_eq in E.
      intros H Hc Hw. apply (IH _ _ _ _ H).
      * pose proof (Z.div_mod c 10 ltac:(lia)). lia.
      * assert (Ec : c = 10 * (c / 10))
          by (pose proof (Z.div_mod c 10 ltac:(lia)); lia).
        set (c10 := c / 10) in *. clearbody c10. subst c.
        unfold decimal_within in *.
        pose proof scale_pos as PS. set (S := 2 ^ 1076) in *.
        destruct (Z.le_gt_cases 0 k) as [K|K].
        -- rewrite (Z.max_r 0 (k + 1)) by lia.
           rewrite (Z.max_l 0 (- (k + 1))) by lia.
           rewrite (Z.max_r 0 k) in Hw by lia.
           rewrite (Z.max_l 0 (- k)) in Hw by lia.
           rewrite Z.pow_add_r by lia. change (10 ^ 1) with 10.
           replace (c10 * (10 ^ k * 10) * S) with (10 * c10 * 10 ^ k * S)
             by ring.
           exact Hw.
        -- rewrite (Z.max_l 0 (k + 1)) by lia.
           rewrite (Z.max_r 0 (- (k + 1))) by lia.
           rewrite (Z.max_l 0 k) in Hw by lia.
           rewrite (Z.max_r 0 (- k)) in Hw by lia.
           replace (- k) with (- (k + 1) + 1) in Hw by lia.
           rewrite Z.pow_add_r in Hw by lia. change (10 ^ 1) with 10 in Hw.
           rewrite Z.pow_0_r, Z.mul_1_r in *.
           set (b := 10 ^ (- (k + 1))) in *.
           destruct closed; lia.
    + intros H. injection H as <- <-. auto.
Qed.

(** The decimal [float_decimal] returns reads back as the float. *)
Theorem float_decimal_reads_back m e :
  bounded prec emax m e = true ->
  0 < fst (Py.float_decimal m e)
  /\ reads_back m e (fst (Py.float_decimal m e)) (snd (Py.float_decimal m e)).
Proof.
  intros H. unfold Py.float_decimal, reads_back.
  destruct (interval_width m e H) as (Hlo & Hin & _ & Hv).
  set (v := Zpos m * 2 ^ (e + 1076)) in *.
  set (up := 2 ^ (e + 1075)) in *.
  set (down := if (Zpos m =? 2 ^ 52) && (-1074 <? e)
               then 2 ^ (e + 1074) else up) in *.
  set (p := Py.dec_exponent 8 (Py.dec_exponent_start m e) v).
  assert (Hp : Py.cmp_dec 1 (p - 1) v <> Gt).
  { apply dec_exponent_lower. apply (cmp_dec_mono _ _ _ Hv).
    unfold Py.dec_exponent_start.
    replace (Zpos (digits2_pos m) + e + 1075)
      with (Zpos (digits2_pos m) + e - 1 + 1 + 1075) by lia.
    replace (Zpos (digits2_pos m) + e - 1)
      with (Zpos (digits2_pos m) + e - 1 + 1 - 1) at 1 by lia.
    apply start_below_power.
    destruct (bounded_range m e H) as (_ & _ & Hb). lia. }
  pose proof (spacing_17 m e p H Hp) as Hs. fold v up down in Hs.
  destruct (Py.shortest_digits 17 1 p (Z.even (Zpos m)) (v - down) (v + up) v)
    as [c k] eqn:Hsd.
  assert (Hi : Py.inside (Z.even (Zpos m)) (v - down) (v + up) c k = true).
  { destruct (shortest_digits_result _ _ _ _ _ _ _ _ _ Hsd)
      as [Hi|[Hk Hf]]; [exact Hi|].
    destruct (Hf ltac:(discriminate)) as [F1 F2].
    change (Z.of_nat 17) with 17 in Hk.
    assert (Hk' : k + 1 = p - 17) by lia.
    rewrite Hk' in F1, F2.
    destruct (candidate_inside (Z.even (Zpos m)) (v - down) (v + up) v
                (p - 17) Hin Hs); congruence. }
  apply inside_within in Hi.
  assert (Hc : 0 < c).
  { unfold decimal_within in Hi.
    pose proof (pow10_pos k) as PA. pose proof (pow10_pos (- k)) as PB.
    pose proof scale_pos as PS.
    assert (0 < (v - down) * 10 ^ Z.max 0 (- k))
      by (apply Z.mul_pos_pos; assumption).
    assert (0 < c * 10 ^ Z.max 0 k * 2 ^ 1076)
      by (destruct (Z.even (Zpos m)); lia).
    destruct (Z.lt_trichotomy 0 c) as [G|[G|G]]; [exact G|subst c; lia|].
    assert (c * 10 ^ Z.max 0 k * 2 ^ 1076 < 0); [|lia].
    rewrite <- Z.mul_assoc. apply Z.mul_neg_pos; [exact G|].
    apply Z.mul_pos_pos; assumption. }
  destruct (Py.strip_zeros 20 c k) as [c' k'] eqn:Hz. cbn [fst snd].
  apply (strip_zeros_within _ _ _ _ _ _ _ _ Hz Hc Hi).
Qed.


(** [repr] of a finite float that is not zero: its sign and the layout of
    the digits of a decimal that reads back as the float. *)
Lemma repr_finite x s m e :
  Prim2SF x = S754_finite s m e ->
  exists c k,
    0 < c /\ reads_back m e c k
    /\ Py.repr x
       = (Py.sign_str s
          ++ Py.float_layout (Py.str_of_Z c)
               (Z.of_nat (String.length (Py.str_of_Z c)) + k))%string.
Proof.
  intros E. pose proof (Prim2SF_valid x) as V. rewrite E in V.
  destruct (float_decimal_reads_back m e V) as [Hc Hr].
  exists (fst (Py.float_decimal m e)), (snd (Py.float_decimal m e)).
  split; [exact Hc|]. split; [exact Hr|].
  unfold Py.repr, Py.float_digits. rewrite E.
  destruct (Py.float_decimal m e) as [c k]. reflexivity.
Qed.

End ReprFacts.

(** ** Source discovery *)

Module Discovery.

Local Open Scope string_scope.

(** *** Strings *)

Lemma prefix_app s : forall t, prefix s t = true -> t = s ++ skip (String.length s) t.
Proof.
  induction s as [|a s IH]; intros t H; simpl.
  - reflexivity.
  - destruct t as [|b t]; simpl in H; [discriminate|].
    destruct (ascii_dec a b) as [->|]; [|discriminate].
    f_equal. apply IH, H.
Qed.

Lemma skip_app s t : skip (String.length s) (s ++ t) = t.
Proof. induction s as [|a s IH]; simpl; auto. Qed.

Lemma contains_app c s t : contains c (s ++ String c t) = true.
Proof.
  induction s as [|a s IH]; simpl.
  - rewrite Ascii.eqb_refl. reflexivity.
  - rewrite IH. apply orb_true_r.
Qed.

Lemma append_assoc (s t u : string) : (s ++ t) ++ u = s ++ (t ++ u).
Proof. induction s as [|a s IH]; simpl; congruence. Qed.

Lemma package_named_name p :
  package_named p = true -> package_name (name p).
Proof.
  unfold package_named. intros H.
  apply andb_prop in H. destruct H as [H1 H2].
  exists (skip (String.length "intel-rapl:") (name p)). split.
  - apply prefix_app, H1.
  - apply negb_true_iff, H2.
Qed.

Lemma package_not_subzone n : package_name n -> ~ subzone_name n.
Proof.
  intros (suffix & -> & Hs) (parent & rest & Hp & E).
  apply prefix_app in Hp. rewrite Hp, append_assoc in E.
  apply (f_equal (skip (String.length "intel-rapl:"))) in E.
  rewrite !skip_app in E. subst suffix.
  change (":" ++ rest) with (String ":" rest) in Hs.
  rewrite contains_app in Hs. discriminate.
Qed.

(** *** The order on names *)

Lemma leb_iff s t : String.leb s t = true <-> s = t \/ String_as_OT.lt s t.
Proof.
  unfold String.leb.
  destruct (String.compare s t) eqn:E.
  - apply String_as_OT.cmp_eq in E. tauto.
  - apply String_as_OT.cmp_lt in E. tauto.
  - split; [discriminate|].
    intros [->|H].
    + assert (String.compare t t = Eq) as R by (apply String_as_OT.cmp_eq; reflexivity).
      congruence.
    + apply String_as_OT.cmp_lt in H. unfold String_as_OT.cmp in H. congruence.
Qed.

Lemma leb_trans s t u :
  String.leb s t = true -> String.leb t u = true -> String.leb s u = true.
Proof.
  rewrite !leb_iff. intros [->|H1] [->|H2]; auto.
  right. eapply String_as_OT.lt_trans; eauto.
Qed.

Lemma ltb_false_leb s t : String.ltb s t = false -> String.leb t s = true.
Proof.
  unfold String.ltb, String.leb. rewrite (String.compare_antisym t s).
  destruct (String.compare s t); simpl; congruence.
Qed.

Lemma ltb_true_leb s t : String.ltb s t = true -> String.leb s t = true.
Proof.
  unfold String.ltb, String.leb.
  destruct (String.compare s t); simpl; congruence.
Qed.

Lemma name_le_trans p q r : name_le p q -> name_le q r -> name_le p r.
Proof. apply leb_trans. Qed.

(** *** [sorted] *)

Lemma insert_perm p l : Permutation (insert p l) (p :: l).
Proof.
  induction l as [|q l IH]; simpl.
  - reflexivity.
  - destruct (String.ltb (name q) (name p)).
    + rewrite IH. apply perm_swap.
    + reflexivity.
Qed.

Lemma sorted_perm l : Permutation (sorted l) l.
Proof.
  induction l as [|p l IH]; simpl.
  - reflexivity.
  - rewrite insert_perm. constructor. exact IH.
Qed.

Lemma insert_sorted p l :
  StronglySorted name_le l -> StronglySorted name_le (insert p l).
Proof.
  induction 1 as [|q l Hs IH Hq]; simpl.
  - repeat constructor.
  - destruct (String.ltb (name q) (name p)) eqn:E.
    + constructor; [exact IH|].
      rewrite (Forall_forall (name_le q)). intros x Hx.
      apply (Permutation_in _ (insert_perm p l)) in Hx.
      destruct Hx as [<-|Hx].
      * apply ltb_true_leb, E.
      * rewrite Forall_forall in Hq. apply Hq, Hx.
    + assert (name_le p q) as Hpq by apply ltb_false_leb, E.
      constructor; [constructor; assumption|].
      constructor; [exact Hpq|].
      eapply Forall_impl; [|exact Hq].
      intros x Hx. eapply name_le_trans; eauto.
Qed.

Lemma sorted_sorted l : StronglySorted name_le (sorted l).
Proof.
  induction l as [|p l IH]; simpl.
  - constructor.
  - apply insert_sorted, IH.
Qed.

(** Two sorted lists with the same elements and no repeated name are the
    same list. *)
Lemma sorted_unique l1 : forall l2,
  StronglySorted name_le l1 -> StronglySorted name_le l2 ->
  NoDup (map name l1) -> NoDup (map name l2) ->
  (forall x, In x l1 <-> In x l2) -> l1 = l2.
Proof.
  induction l1 as [|x1 t1 IH]; intros l2 S1 S2 N1 N2 HI.
  - destruct l2 as [|x2 t2]; [reflexivity|].
    destruct (proj2 (HI x2) (or_introl eq_refl)).
  - destruct l2 as [|x2 t2].
    { destruct (proj1 (HI x1) (or_introl eq_refl)). }
    inversion S1 as [|? ? S1' F1]; subst.
    inversion S2 as [|? ? S2' F2]; subst.
    inversion N1 as [|? ? NI1 N1']; subst.
    inversion N2 as [|? ? NI2 N2']; subst.
    rewrite Forall_forall in F1, F2.
    assert (x1 = x2) as ->.
    { destruct (proj1 (HI x1) (or_introl eq_refl)) as [E|I1]; [auto|].
      destruct (proj2 (HI x2) (or_introl eq_refl)) as [E|I2]; [auto|].
      exfalso. apply NI2.
      replace (name x2) with (name x1)
        by (apply String.leb_antisym; [apply F1, I2 | apply F2, I1]).
      apply in_map, I1. }
    f_equal. apply IH; auto.
    intros y; split; intros Hy.
    + destruct (proj1 (HI y) (or_intror Hy)) as [E|I]; [|exact I].
      subst y. exfalso. apply NI1, in_map, Hy.
    + destruct (proj2 (HI y) (or_intror Hy)) as [E|I]; [|exact I].
      subst y. exfalso. apply NI2, in_map, Hy.
Qed.

Lemma NoDup_map_filter (f : Path -> bool) l :
  NoDup (map name l) -> NoDup (map name (filter f l)).
Proof.
  induction l as [|p l IH]; simpl; intros H; [constructor|].
  inversion H as [|? ? NI N]; subst.
  destruct (f p); simpl; auto.
  constructor; auto.
  intros HI. apply NI.
  apply in_map_iff in HI. destruct HI as (q & E & Hq).
  apply filter_In in Hq. rewrite <- E. apply in_map, Hq.
Qed.

(** *** The generator *)

(** What the filter answers on a path whose tests all answer. *)
Lemma is_package_true p :
  is_package p = Return true
  <-> package_named p = true /\ exists_ (energy_uj p) = Return true.
Proof.
  unfold is_package. destruct (package_named p).
  - split; [auto|tauto].
  - split; [discriminate|]. intros [H _]. discriminate H.
Qed.

(** The generator returns when no test raises, and then it is the filter. *)
Lemma packages_of_returns entries : forall ps,
  packages_of entries = Return ps
  <-> (forall p, In p entries -> exists b, is_package p = Return b)
      /\ ps = filter (fun p => match is_package p with
                               | Return true => true
                               | _ => false
                               end) entries.
Proof.
  induction entries as [|q rest IH]; intros ps; simpl.
  - split.
    + intros H. injection H as <-. split; [intros p []|reflexivity].
    + intros [_ ->]. reflexivity.
  - destruct (is_package q) as [b|e] eqn:E; simpl.
    + destruct (packages_of rest) as [ps'|e'] eqn:E'; simpl.
      * destruct (proj1 (IH ps') eq_refl) as [Hall ->].
        split.
        -- intros H. injection H as <-. split.
           ++ intros p [<-|Hp]; eauto.
           ++ destruct b; reflexivity.
        -- intros [_ ->]. destruct b; reflexivity.
      * split; [discriminate|]. intros [Hall _].
        assert (@Raise (list Path) e' = Return
                  (filter (fun p => match is_package p with
                                    | Return true => true
                                    | _ => false
                                    end) rest)) as R.
        { apply IH. split; [|reflexivity]. intros p Hp. apply Hall. now right. }
        discriminate R.
    + split; [discriminate|]. intros [Hall _].
      destruct (Hall q (or_introl eq_refl)) as [b Hb]. congruence.
Qed.

Lemma rapl_packages_listed entries packages :
  _rapl_packages (Listed entries) = Return packages
  <-> (forall p, In p entries -> exists b, is_package p = Return b)
      /\ packages = sorted (filter (fun p => match is_package p with
                                             | Return true => true
                                             | _ => false
                                             end) entries).
Proof.
  simpl. destruct (packages_of entries) as [ps|e] eqn:E; simpl.
  - apply packages_of_returns in E. destruct E as [Hall ->].
    split.
    + intros H. injection H as <-. split; [exact Hall|reflexivity].
    + intros [_ ->]. reflexivity.
  - split; [discriminate|]. intros [Hall _].
    assert (packages_of entries = Return
              (filter (fun p => match is_package p with
                                | Return true => true
                                | _ => false
                                end) entries)) as R
      by (apply packages_of_returns; split; [exact Hall|reflexivity]).
    congruence.
Qed.

(** Every source returned is a listed entry that passes the filter. *)
Lemma rapl_packages_In base packages p :
  _rapl_packages base = Return packages -> In p packages ->
  (exists entries, base = Listed entries /\ In p entries)
  /\ package_named p = true /\ exists_ (energy_uj p) = Return true.
Proof.
  intros H HI. destruct base as [| | |entries]; simpl in H;
    try discriminate H.
  - injection H as <-. destruct HI.
  - apply rapl_packages_listed in H. destruct H as [_ ->].
    apply (Permutation_in _ (sorted_perm _)) in HI.
    apply filter_In in HI. destruct HI as [HI Hp].
    split; [eauto|]. apply is_package_true.
    destruct (is_package p) as [[|]|]; try discriminate Hp. reflexivity.
Qed.

Lemma rapl_packages_perm entries entries' packages :
  Permutation entries entries' ->
  NoDup (map name entries) ->
  _rapl_packages (Listed entries) = Return packages ->
  _rapl_packages (Listed entries') = Return packages.
Proof.
  intros P N H.
  apply rapl_packages_listed in H. destruct H as [Hall ->].
  apply rapl_packages_listed. split.
  { intros p Hp. apply Hall.
    eapply Permutation_in; [apply Permutation_sym, P|exact Hp]. }
  assert (N' : NoDup (map name entries'))
    by (eapply Permutation_NoDup; [apply Permutation_map, P|exact N]).
  apply sorted_unique; try apply sorted_sorted.
  - eapply Permutation_NoDup;
      [apply Permutation_map, Permutation_sym, sorted_perm|].
    apply NoDup_map_filter, N.
  - eapply Permutation_NoDup;
      [apply Permutation_map, Permutation_sym, sorted_perm|].
    apply NoDup_map_filter, N'.
  - intros x. split; intros Hx.
    + apply (Permutation_in _ (sorted_perm _)) in Hx.
      apply (Permutation_in _ (Permutation_sym (sorted_perm _))).
      apply filter_In in Hx. apply filter_In.
      split; [|tauto]. eapply Permutation_in; [apply P|tauto].
    + apply (Permutation_in _ (sorted_perm _)) in Hx.
      apply (Permutation_in _ (Permutation_sym (sorted_perm _))).
      apply filter_In in Hx. apply filter_In.
      split; [|tauto]. eapply Permutation_in; [apply Permutation_sym, P|tauto].
Qed.

End Discovery.

(** ** Reading capture *)

Local Open Scope float_scope.

Lemma read_rapl_loop_returns packages : forall total,
  exists r, read_rapl_loop total packages = Return r.
Proof.
  induction packages as [|pkg rest IH]; intros total; simpl.
  - eauto.
  - destruct (energy_uj pkg); simpl; eauto.
Qed.

(** One source that does not parse makes the whole sum [None], whatever the
    sources before and after it hold. *)
Lemma read_rapl_loop_none packages : forall total p,
  In p packages -> (forall v, energy_uj p <> Numeric v) ->
  read_rapl_loop total packages = Return None.
Proof.
  induction packages as [|pkg rest IH]; intros total p HI Hbad; simpl.
  - destruct HI.
  - destruct HI as [->|HI].
    + destruct (energy_uj p) as [| | | |v]; simpl; try reflexivity.
      destruct (Hbad v eq_refl).
    + destruct (energy_uj pkg); simpl; eauto.
Qed.

Lemma read_rapl_loop_numeric packages : forall total,
  all_numeric packages ->
  read_rapl_loop total packages
  = Return (Some (fold_left PrimFloat.add (counter_values packages) total)).
Proof.
  induction packages as [|pkg rest IH]; intros total H; simpl.
  - reflexivity.
  - destruct (H pkg (or_introl eq_refl)) as [v E]. rewrite E. simpl.
    apply IH. intros p Hp. apply H. right. exact Hp.
Qed.

(** Either every source parses, or one does not. *)
Lemma all_numeric_or_not packages :
  all_numeric packages
  \/ exists p, In p packages /\ forall v, energy_uj p <> Numeric v.
Proof.
  induction packages as [|pkg rest IH].
  - left. intros p [].
  - destruct (energy_uj pkg) as [| | | |v] eqn:E;
      try (right; exists pkg; split; [left; reflexivity|];
           intros v; rewrite E; discriminate).
    destruct IH as [IH|(p & HI & Hbad)].
    + left. intros p [<-|Hp]; eauto.
    + right. exists p. split; [right; exact HI|exact Hbad].
Qed.

Lemma read_cpu_time_returns ps : exists r, _read_cpu_time ps = Return r.
Proof.
  unfold _read_cpu_time. destruct (cpu_time_body ps); eauto.
Qed.

(** What the discovered sources make of [rapl_joules]. *)
Lemma read_packages packages :
  (packages <> [] /\ all_numeric packages
   /\ match packages with
      | [] => Return None
      | _ => _read_rapl_uj packages
      end
      = Return (Some (fold_left PrimFloat.add (counter_values packages) 0)))
  \/ ((packages = []
       \/ exists p, In p packages /\ forall v, energy_uj p <> Numeric v)
      /\ match packages with
         | [] => Return None
         | _ => _read_rapl_uj packages
         end = Return None).
Proof.
  destruct packages as [|q l].
  - right. split; [left|]; reflexivity.
  - destruct (all_numeric_or_not (q :: l)) as [H|(p & HI & Hbad)].
    + left. split; [discriminate|]. split; [exact H|].
      apply read_rapl_loop_numeric, H.
    + right. split; [right; eauto|].
      apply (read_rapl_loop_none _ _ p HI Hbad).
Qed.

(** [take_reading] once discovery has returned. *)
Lemma take_reading_discovered env packages rapl_uj :
  _rapl_packages (RAPL_BASE env) = Return packages ->
  match packages with
  | [] => Return None
  | _ => _read_rapl_uj packages
  end = Return rapl_uj ->
  take_reading env
  = Return {| timestamp := monotonic env;
              rapl_joules := match rapl_uj with
                             | Some uj => Some (uj / 1000000)
                             | None => None
                             end;
              cpu_time_seconds :=
                match psutil env with
                | CpuTimes user system None => Some (user + system)
                | CpuTimes user system (Some (cu, cs)) =>
                    Some (user + system + (cu + cs))
                | _ => None
                end |}.
Proof.
  intros Hd Hr. unfold take_reading. rewrite Hd. simpl. rewrite Hr. simpl.
  destruct (psutil env) as [| |u s [[cu cs]|]]; reflexivity.
Qed.

(** [take_reading] raises exactly what discovery raises. *)
Lemma take_reading_raises env e :
  take_reading env = Raise e <-> _rapl_packages (RAPL_BASE env) = Raise e.
Proof.
  unfold take_reading.
  destruct (_rapl_packages (RAPL_BASE env)) as [packages|e'] eqn:E; simpl.
  - destruct (read_packages packages) as [(_ & _ & H)|[_ H]];
      rewrite H; simpl;
      destruct (read_cpu_time_returns (psutil env)) as [c ->]; simpl;
      split; discriminate.
  - split; intros H; injection H as ->; reflexivity.
Qed.

(** ** The wrap-around branch *)

Lemma max_ranges_raises packages : forall e,
  max_ranges packages = Raise e -> e = OSError \/ e = ValueError.
Proof.
  induction packages as [|p rest IH]; intros e; simpl.
  - discriminate.
  - destruct (max_energy_range_uj p); simpl; auto.
    + intros H. injection H as <-. auto.
    + intros H. injection H as <-. auto.
    + intros H. injection H as <-. auto.
    + destruct (max_ranges rest) as [vs|e'] eqn:E; simpl; [discriminate|].
      intros H. injection H as <-. auto.
Qed.

Lemma max_ranges_existing packages :
  (forall p, In p packages -> range_parses p) ->
  max_ranges packages = Return (existing_max_ranges packages).
Proof.
  induction packages as [|p rest IH]; intros H; simpl.
  - reflexivity.
  - assert (IH' := IH (fun q Hq => H q (or_intror Hq))).
    destruct (H p (or_introl eq_refl)) as [->|[v ->]]; simpl.
    + exact IH'.
    + rewrite IH'. reflexivity.
Qed.

Lemma max_ranges_fails packages p :
  In p packages -> range_fails p -> exists e, max_ranges packages = Raise e.
Proof.
  induction packages as [|q rest IH]; intros HI Hbad; simpl.
  - destruct HI.
  - destruct HI as [->|HI].
    + destruct Hbad as [-> | [-> | ->]]; simpl; eauto.
    + destruct (IH HI Hbad) as [e E]. rewrite E.
      destruct (max_energy_range_uj q); simpl; eauto.
Qed.

Lemma max_ranges_returns packages : forall vs,
  max_ranges packages = Return vs ->
  vs = existing_max_ranges packages
  /\ forall p, In p packages -> range_parses p.
Proof.
  induction packages as [|q rest IH]; intros vs H; simpl in *.
  - injection H as <-. split; [reflexivity|]. intros p [].
  - destruct (max_energy_range_uj q) as [| | | |v] eqn:E; simpl in H;
      try discriminate H.
    + destruct (IH vs H) as [-> Hall]. split; [reflexivity|].
      intros p [<-|Hp]; [left; exact E|apply Hall, Hp].
    + destruct (max_ranges rest) as [vs'|e] eqn:E'; simpl in H;
        [|discriminate H].
      injection H as <-. destruct (IH vs' eq_refl) as [-> Hall].
      split; [reflexivity|].
      intros p [<-|Hp]; [right; eauto|apply Hall, Hp].
Qed.

(** The branch returns once the sources are enumerated, and raises what the
    enumeration raises. *)
Lemma wrap_correct_returns base delta packages :
  _rapl_packages base = Return packages ->
  exists d, wrap_correct base delta = Return d.
Proof.
  intros H. unfold wrap_correct. rewrite H. simpl.
  destruct (max_ranges packages) as [vs|e] eqn:E; simpl.
  - eauto.
  - destruct (max_ranges_raises _ _ E) as [-> | ->]; eauto.
Qed.

Lemma wrap_correct_raises base delta e :
  wrap_correct base delta = Raise e <-> _rapl_packages base = Raise e.
Proof.
  unfold wrap_correct.
  destruct (_rapl_packages base) as [packages|e'] eqn:H; simpl;
    [|split; intros R; injection R as ->; reflexivity].
  destruct (max_ranges packages) as [vs|e''] eqn:E; simpl.
  - split; discriminate.
  - destruct (max_ranges_raises _ _ E) as [-> | ->]; split; discriminate.
Qed.

(** In the branch, after the enumeration. *)
Lemma wrap_correct_sum base delta packages :
  _rapl_packages base = Return packages ->
  (forall p, In p packages -> range_parses p) ->
  wrap_correct base delta
  = Return (delta + sum (existing_max_ranges packages) / 1000000).
Proof.
  intros H Hall. unfold wrap_correct. rewrite H. simpl.
  rewrite (max_ranges_existing _ Hall). reflexivity.
Qed.

Lemma wrap_correct_abs base delta packages p :
  _rapl_packages base = Return packages ->
  In p packages -> range_fails p ->
  wrap_correct base delta = Return (abs delta).
Proof.
  intros H HI Hbad. unfold wrap_correct. rewrite H. simpl.
  destruct (max_ranges_fails _ _ HI Hbad) as [e E]. rewrite E.
  destruct (max_ranges_raises _ _ E) as [-> | ->]; reflexivity.
Qed.

(** ** The measurement *)

Lemma compute_energy_duration_returned base start end_ tdp_watts m :
  compute_energy base start end_ tdp_watts = Return m ->
  duration_seconds m = timestamp end_ - timestamp start.
Proof.
  unfold compute_energy.
  destruct (rapl_joules start) as [sr|], (rapl_joules end_) as [er|];
    try (destruct (cpu_time_seconds start), (cpu_time_seconds end_);
         intros H; injection H as <-; reflexivity).
  destruct (_ : result float) as [d|e]; simpl; [|discriminate].
  intros H. injection H as <-. reflexivity.
Qed.

(** [compute_energy] returns unless the wrap-around branch is taken and the
    enumeration of the sources raises. *)
Lemma compute_energy_returns base start end_ tdp_watts :
  (forall start_rapl end_rapl,
      rapl_joules start = Some start_rapl ->
      rapl_joules end_ = Some end_rapl ->
      (end_rapl - start_rapl <? 0) = true ->
      exists packages, _rapl_packages base = Return packages) ->
  exists m, compute_energy base start end_ tdp_watts = Return m.
Proof.
  intros H. unfold compute_energy.
  destruct (rapl_joules start) as [sr|], (rapl_joules end_) as [er|];
    try (destruct (cpu_time_seconds start), (cpu_time_seconds end_);
         eexists; reflexivity).
  destruct (er - sr <? 0) eqn:E.
  - destruct (H sr er eq_refl eq_refl E) as [packages Hp].
    destruct (wrap_correct_returns base (er - sr) packages Hp) as [d ->].
    simpl. eexists; reflexivity.
  - simpl. eexists; reflexivity.
Qed.

(** ** Shared lemmas *)

Lemma prefix_append s t : prefix s (s ++ t) = true.
Proof.
  induction s as [|a s IH]; simpl.
  - destruct t; reflexivity.
  - destruct (ascii_dec a a) as [_|N]; [exact IH|destruct (N eq_refl)].
Qed.

(** The filter raises only on a package name whose [energy_uj] cannot be
    looked for. *)
Lemma is_package_raises p e :
  is_package p = Raise e
  <-> e = OSError /\ package_named p = true /\ energy_uj p = NoAccess.
Proof.
  unfold is_package. destruct (package_named p).
  - destruct (energy_uj p); simpl; split;
      try discriminate; try (intros (_ & _ & H); discriminate H).
    + intros H. injection H as <-. auto.
    + intros (-> & _). reflexivity.
  - split; [discriminate|]. intros (_ & H & _). discriminate H.
Qed.

Lemma packages_of_raises entries : forall e,
  packages_of entries = Raise e
  <-> e = OSError
      /\ exists p, In p entries /\ package_named p = true
                   /\ energy_uj p = NoAccess.
Proof.
  induction entries as [|q rest IH]; intros e; simpl.
  - split; [discriminate|]. intros (_ & p & [] & _).
  - destruct (is_package q) as [b|e'] eqn:E; simpl.
    + destruct (packages_of rest) as [ps|e''] eqn:E'; simpl.
      * split; [discriminate|]. intros (-> & p & [<-|Hp] & Hn & Ha).
        -- assert (R : is_package q = Raise OSError)
             by (apply is_package_raises; auto).
           congruence.
        -- assert (R : @Return (list Path) ps = Raise OSError)
             by (apply IH; eauto).
           discriminate R.
      * split.
        -- intros H. injection H as <-.
           destruct (proj1 (IH e'') eq_refl) as (-> & p & Hp & Hn & Ha).
           split; [reflexivity|]. exists p. auto.
        -- intros (-> & _). destruct (proj1 (IH e'') eq_refl) as (-> & _).
           reflexivity.
    + apply is_package_raises in E. destruct E as (-> & Hn & Ha). split.
      * intros H. injection H as <-. split; [reflexivity|]. exists q. auto.
      * intros (-> & _). reflexivity.
Qed.

(** When discovery raises: the base directory cannot be looked for or
    listed, or an entry named like a package cannot be searched. *)
Lemma rapl_packages_raises base e :
  _rapl_packages base = Raise e
  <-> e = OSError
      /\ (base = Inaccessible \/ base = NotListable
          \/ exists entries p,
               base = Listed entries /\ In p entries
               /\ package_named p = true /\ energy_uj p = NoAccess).
Proof.
  destruct base as [| | |entries]; simpl.
  - split; [discriminate|].
    intros (_ & [H|[H|(? & ? & H & _)]]); discriminate H.
  - split.
    + intros H. injection H as <-. auto.
    + intros (-> & _). reflexivity.
  - split.
    + intros H. injection H as <-. auto.
    + intros (-> & _). reflexivity.
  - destruct (packages_of entries) as [ps|e'] eqn:E; simpl.
    + split; [discriminate|].
      intros (-> & [H|[H|(en & p & H & Hp)]]); try discriminate H.
      injection H as <-.
      assert (R : packages_of entries = Raise OSError)
        by (apply packages_of_raises; eauto).
      congruence.
    + apply packages_of_raises in E. destruct E as (-> & p & Hp). split.
      * intros H. injection H as <-. split; [reflexivity|].
        right. right. exists entries, p. tauto.
      * intros (-> & _). reflexivity.
Qed.

(** Listing order does not matter, whether discovery returns or raises. *)
Lemma rapl_packages_perm_eq entries entries' :
  Permutation entries entries' ->
  NoDup (map name entries) ->
  _rapl_packages (Listed entries') = _rapl_packages (Listed entries).
Proof.
  intros P N.
  destruct (_rapl_packages (Listed entries)) as [packages|e] eqn:E.
  - apply (Discovery.rapl_packages_perm entries entries' packages P N E).
  - apply rapl_packages_raises in E.
    destruct E as (-> & [H|[H|(en & p & H & Hp & Hn & Ha)]]);
      try discriminate H.
    injection H as <-. apply rapl_packages_raises. split; [reflexivity|].
    right. right. exists entries', p. split; [reflexivity|].
    split; [|auto]. eapply Permutation_in; [exact P|exact Hp].
Qed.

(** A listed entry that passes the filter is returned. *)
Lemma rapl_packages_member entries packages p :
  _rapl_packages (Listed entries) = Return packages ->
  In p entries -> is_package p = Return true -> In p packages.
Proof.
  intros H HI Hp. apply Discovery.rapl_packages_listed in H.
  destruct H as [_ ->].
  apply (Permutation_in _ (Permutation_sym (Discovery.sorted_perm _))).
  apply filter_In. split; [exact HI|]. rewrite Hp. reflexivity.
Qed.

Lemma fold_add_nonneg l : forall total,
  (0 <=? total) = true -> Forall (fun v => (0 <=? v) = true) l ->
  (0 <=? fold_left PrimFloat.add l total) = true.
Proof.
  induction l as [|v l IH]; intros total Ht Hl; simpl.
  - exact Ht.
  - inversion Hl; subst. apply IH; [|assumption].
    apply FloatArith.add_nonneg; assumption.
Qed.

Lemma counter_values_nonneg packages :
  counters_nonneg packages ->
  Forall (fun v => (0 <=? v) = true) (counter_values packages).
Proof.
  induction packages as [|pkg rest IH]; intros H; simpl.
  - constructor.
  - apply Forall_app. split.
    + destruct (energy_uj pkg) as [| | | |v] eqn:E; constructor; [|constructor].
      apply (H pkg v); [left; reflexivity|exact E].
    + apply IH. intros p v Hp. apply H. right. exact Hp.
Qed.

Lemma read_cpu_time_nonneg ps c :
  cpu_times_nonneg ps -> _read_cpu_time ps = Return (Some c) ->
  (0 <=? c) = true.
Proof.
  destruct ps as [| |u s [[cu cs]|]]; simpl; try discriminate.
  - intros (Hu & Hs & Hcu & Hcs) H. injection H as <-.
    repeat apply FloatArith.add_nonneg; assumption.
  - intros (Hu & Hs & _) H. injection H as <-.
    apply FloatArith.add_nonneg; assumption.
Qed.

(** * The claims *)

(** C1, as stated, fails in each tier.  The estimate tiers multiply the
    differences as given: a CPU time that decreases, or a negative
    [tdp_watts], yields a negative energy, and zero times infinity a NaN.
    The hardware tier adds the counter ranges to a negative difference
    without a test on the result: with no range file the difference stays
    negative. *)
Lemma compute_energy_negative_energy :
  compute_energy no_powercap
    (_make_reading 0 None (Some 3)) (_make_reading 5 None (Some 1)) 10
  = Return {| duration_seconds := 5;
              energy_joules := -20;
              source := "cpu_time_estimate";
              notes := "Estimated using cpu_time=-2.000s × tdp=10.0W" |}
  /\ (-20 <? 0) = true
  /\ compute_energy no_powercap
       (_make_reading 0 None None) (_make_reading 4 None None) (-15)
     = Return {| duration_seconds := 4;
                 energy_joules := -60;
                 source := "elapsed_time_estimate";
                 notes := "Estimated using elapsed=4.000s × tdp=-15.0W (no CPU time available)" |}
  /\ (-60 <? 0) = true
  /\ compute_energy (Listed [pkg0])
       (_make_reading 0 (Some 5) None) (_make_reading 2 (Some 1) None) 15
     = Return {| duration_seconds := 2;
                 energy_joules := -4;
                 source := "rapl";
                 notes := "" |}
  /\ (-4 <? 0) = true
  /\ compute_energy no_powercap
       (_make_reading (-0x1.1ccf385ebc8a0p+1023) None None)
       (_make_reading 0x1.1ccf385ebc8a0p+1023 None None) 0
     = Return {| duration_seconds := infinity;
                 energy_joules := nan;
                 source := "elapsed_time_estimate";
                 notes := "Estimated using elapsed=infs × tdp=0.0W (no CPU time available)" |}
  /\ compute_energy no_powercap
       (_make_reading 7 None None) (_make_reading 7 None None) infinity
     = Return {| duration_seconds := 0;
                 energy_joules := nan;
                 source := "elapsed_time_estimate";
                 notes := "Estimated using elapsed=0.000s × tdp=infW (no CPU time available)" |}
  /\ (0 <=? nan) = false.
Proof. vm_compute. repeat split. Qed.

(** C1 (amended): [compute_energy] returns a measurement with
    [energy_joules >= 0] on the inputs of [nonneg_inputs].  In the hardware
    tier: a difference [>= 0]; or a negative one, with the sources
    enumerated and either a range file that fails (the energy is
    [abs(delta)]) or range files that all parse to a finite sum of at least
    [-delta].  In the estimate tiers: the difference multiplied and
    [tdp_watts] both [>= 0] or both [<= 0], and their product not zero
    times infinity. *)
Theorem compute_energy_nonneg base start end_ tdp_watts :
  nonneg_inputs base start end_ tdp_watts ->
  exists m, compute_energy base start end_ tdp_watts = Return m
            /\ (0 <=? energy_joules m) = true.
Proof.
  unfold nonneg_inputs, compute_energy.
  destruct (rapl_joules start) as [sr|], (rapl_joules end_) as [er|].
  1: { intros [Hd|(Hd & packages & Hp & Hc)].
       - rewrite (FloatFacts.leb_zero_not_ltb _ Hd). simpl.
         eexists; split; [reflexivity|exact Hd].
       - rewrite Hd. destruct Hc as [(p & HI & Hbad)|(Hall & Hf & Hle)].
         + rewrite (wrap_correct_abs _ _ _ _ Hp HI Hbad). simpl.
           eexists; split; [reflexivity|]. simpl.
           apply FloatFacts.ltb_zero_abs, Hd.
         + rewrite (wrap_correct_sum _ _ _ Hp Hall). simpl.
           eexists; split; [reflexivity|]. simpl.
           apply FloatArith.add_nonneg_of_leb; assumption. }
  all: destruct (cpu_time_seconds start) as [sc|],
         (cpu_time_seconds end_) as [ec|];
       intros (Hs & Fx & Ft);
       eexists; (split; [reflexivity|]); simpl;
       apply FloatProduct.leb_mul_nonneg; assumption.
Qed.

(** The wrap-around of the test suite, whose range covers the drop; a
    hardware difference that is not negative, with the clock and the CPU
    time going backwards and a negative [tdp_watts]; an estimate at
    [tdp_watts = 0]; and an estimate from two negative factors. *)
Lemma compute_energy_nonneg_witness :
  (exists m, compute_energy one_package
               (_make_reading 0 (Some 262143) None)
               (_make_reading 5 (Some 10) None) 15 = Return m
             /\ (0 <=? energy_joules m) = true)
  /\ (exists m, compute_energy NotListable
                  (_make_reading 9 (Some 100) (Some 3))
                  (_make_reading 5 (Some 200) (Some 1)) (-15) = Return m
                /\ (0 <=? energy_joules m) = true)
  /\ (exists m, compute_energy no_powercap
                  (_make_reading 0 None (Some 1))
                  (_make_reading 5 None (Some 3)) 0 = Return m
                /\ (0 <=? energy_joules m) = true)
  /\ (exists m, compute_energy no_powercap
                  (_make_reading 0 None (Some 3))
                  (_make_reading 5 None (Some 1)) (-15) = Return m
                /\ (0 <=? energy_joules m) = true).
Proof.
  split; [|split; [|split]].
  - apply compute_energy_nonneg. right. split; [reflexivity|].
    eexists. split; [reflexivity|]. right. split; [|split].
    + intros p [<-|[]]. right. eexists. reflexivity.
    + vm_compute. reflexivity.
    + vm_compute. reflexivity.
  - apply compute_energy_nonneg. left. reflexivity.
  - apply compute_energy_nonneg.
    split; [left; split; reflexivity|split; left; reflexivity].
  - apply compute_energy_nonneg.
    split; [right; split; reflexivity|split; left; reflexivity].
Defined.

(** C2: with both [rapl_joules] present and a difference [>= 0],
    [compute_energy] returns source ["rapl"], the difference as energy and
    empty notes. *)
Theorem compute_energy_rapl base start end_ tdp_watts start_rapl end_rapl :
  rapl_joules start = Some start_rapl ->
  rapl_joules end_ = Some end_rapl ->
  (0 <=? end_rapl - start_rapl) = true ->
  compute_energy base start end_ tdp_watts
  = Return {| duration_seconds := timestamp end_ - timestamp start;
              energy_joules := end_rapl - start_rapl;
              source := "rapl";
              notes := "" |}.
Proof.
  intros Hs He Hd. unfold compute_energy. rewrite Hs, He.
  rewrite (FloatFacts.leb_zero_not_ltb _ Hd). reflexivity.
Qed.

Lemma compute_energy_rapl_witness :
  compute_energy one_package
    (_make_reading 0 (Some 100) (Some 1)) (_make_reading 5 (Some 200) (Some 3))
    15
  = Return {| duration_seconds := 5 - 0;
              energy_joules := 200 - 100;
              source := "rapl";
              notes := "" |}.
Proof.
  apply (compute_energy_rapl one_package
           (_make_reading 0 (Some 100) (Some 1))
           (_make_reading 5 (Some 200) (Some 3)) 15 100 200);
    reflexivity.
Defined.




(** C4: with a [rapl_joules] field absent and both [cpu_time_seconds]
    present, [compute_energy] returns source ["cpu_time_estimate"], energy
    [(end.cpu_time_seconds - start.cpu_time_seconds) * tdp_watts] and the
    notes ["Estimated using cpu_time=<cpu_delta:.3f>s × tdp=<tdp_watts>W"].
    The [.3f] field of a finite difference is its sign, the integer [n]
    nearest to a thousand times its magnitude written as [n // 1000], a
    point and the three digits of [n % 1000]; [tdp_watts] is printed by
    [repr]: for a finite power that is not zero, its sign and the digits,
    laid out around the decimal point, of a decimal that reads back as
    [tdp_watts]; zeros, infinities and NaN print as [0.000], [0.0], [inf]
    and [nan].  With CPU times 1.0 and 3.0 and [tdp_watts = 10.0] the
    energy is 20.0; further inputs show a tie at the third decimal
    (0.0625), a difference and a power that are not binary fractions
    (1234.5678, 0.1), a negative difference and a power printed with an
    exponent. *)
Theorem compute_energy_cpu_time :
  (forall base start end_ tdp_watts start_cpu end_cpu,
      rapl_joules start = None \/ rapl_joules end_ = None ->
      cpu_time_seconds start = Some start_cpu ->
      cpu_time_seconds end_ = Some end_cpu ->
      compute_energy base start end_ tdp_watts
      = Return {| duration_seconds := timestamp end_ - timestamp start;
                  energy_joules := (end_cpu - start_cpu) * tdp_watts;
                  source := "cpu_time_estimate";
                  notes := ("Estimated using cpu_time="
                            ++ Py.format_3f (end_cpu - start_cpu)
                            ++ "s × tdp=" ++ Py.repr tdp_watts ++ "W")%string |})
  /\ (forall cpu_delta s m e,
         Prim2SF cpu_delta = S754_finite s m e ->
         exists n,
           nearest_thousandth m e n /\ (0 <= n)%Z
           /\ Py.format_3f cpu_delta
              = (Py.sign_str s ++ Py.str_of_Z (n / 1000) ++ "."
                 ++ Py.zfill 3 (n mod 1000))%string
           /\ String.length (Py.zfill 3 (n mod 1000)) = 3%nat)
  /\ (forall tdp_watts s m e,
         Prim2SF tdp_watts = S754_finite s m e ->
         exists c k,
           (0 < c)%Z /\ reads_back m e c k
           /\ Py.repr tdp_watts
              = (Py.sign_str s
                 ++ Py.float_layout (Py.str_of_Z c)
                      (Z.of_nat (String.length (Py.str_of_Z c)) + k))%string)
  /\ (forall x,
         match Prim2SF x with
         | S754_zero s =>
             Py.format_3f x = (Py.sign_str s ++ "0.000")%string
             /\ Py.repr x = (Py.sign_str s ++ "0.0")%string
         | S754_infinity s =>
             Py.format_3f x = (Py.sign_str s ++ "inf")%string
             /\ Py.repr x = (Py.sign_str s ++ "inf")%string
         | S754_nan => Py.format_3f x = "nan"%string /\ Py.repr x = "nan"%string
         | S754_finite _ _ _ => True
         end)
  /\ compute_energy no_powercap
       (_make_reading 0 None (Some 1)) (_make_reading 5 None (Some 3)) 10
     = Return {| duration_seconds := 5;
                 energy_joules := 20;
                 source := "cpu_time_estimate";
                 notes := "Estimated using cpu_time=2.000s × tdp=10.0W" |}
  /\ compute_energy no_powercap
       (_make_reading 0 None (Some 0.5)) (_make_reading 5 None (Some 0.5625))
       12.5
     = Return {| duration_seconds := 5;
                 energy_joules := 0.78125;
                 source := "cpu_time_estimate";
                 notes := "Estimated using cpu_time=0.062s × tdp=12.5W" |}
  /\ compute_energy one_package
       (_make_reading 0 (Some 7) (Some 10))
       (_make_reading 5 None (Some 0x1.372456d5cfaadp+10))
       0x1.999999999999ap-4
     = Return {| duration_seconds := 5;
                 energy_joules := 0x1.edd3be22e5de2p+6;
                 source := "cpu_time_estimate";
                 notes := "Estimated using cpu_time=1234.568s × tdp=0.1W" |}
  /\ compute_energy no_powercap
       (_make_reading 0 None (Some 3)) (_make_reading 5 None (Some 1)) 65
     = Return {| duration_seconds := 5;
                 energy_joules := -130;
                 source := "cpu_time_estimate";
                 notes := "Estimated using cpu_time=-2.000s × tdp=65.0W" |}
  /\ compute_energy no_powercap
       (_make_reading 0 None (Some 0))
       (_make_reading 5 None (Some 0x1.89374bc6a7efap-10))
       0x1.0f0cf064dd592p+73
     = Return {| duration_seconds := 5;
                 energy_joules := 0x1.a055690d9db80p+63;
                 source := "cpu_time_estimate";
                 notes := "Estimated using cpu_time=0.002s × tdp=1e+22W" |}.
Proof.
  split; [|split; [|split; [|split]]].
  - intros base start end_ tdp_watts start_cpu end_cpu Hr Hs He.
    unfold compute_energy. rewrite Hs, He.
    destruct Hr as [-> | ->]; [|destruct (rapl_joules start)]; reflexivity.
  - exact PyFacts.format_3f_finite.
  - exact ReprFacts.repr_finite.
  - exact PyFacts.format_special.
  - vm_compute. repeat split.
Qed.

Lemma compute_energy_cpu_time_witness :
  compute_energy one_package
    (_make_reading 0 None (Some 1)) (_make_reading 5 (Some 7) (Some 3)) 10
  = Return {| duration_seconds := 5 - 0;
              energy_joules := (3 - 1) * 10;
              source := "cpu_time_estimate";
              notes := ("Estimated using cpu_time=" ++ Py.format_3f (3 - 1)
                        ++ "s × tdp=" ++ Py.repr 10 ++ "W")%string |}.
Proof.
  apply (proj1 compute_energy_cpu_time one_package
           (_make_reading 0 None (Some 1))
           (_make_reading 5 (Some 7) (Some 3)) 10 1 3);
    [left|..]; reflexivity.
Defined.

(** C5: when neither both [rapl_joules] nor both [cpu_time_seconds] are
    present, [compute_energy] returns source ["elapsed_time_estimate"] and
    energy [(end.timestamp - start.timestamp) * tdp_watts]; a duration of
    4.0 seconds at [tdp_watts = 15.0] gives 60.0. *)
Theorem compute_energy_elapsed_time :
  (forall base start end_ tdp_watts,
      rapl_joules start = None \/ rapl_joules end_ = None ->
      cpu_time_seconds start = None \/ cpu_time_seconds end_ = None ->
      compute_energy base start end_ tdp_watts
      = Return {| duration_seconds := timestamp end_ - timestamp start;
                  energy_joules :=
                    (timestamp end_ - timestamp start) * tdp_watts;
                  source := "elapsed_time_estimate";
                  notes := elapsed_notes (timestamp end_ - timestamp start)
                                         tdp_watts |})
  /\ compute_energy no_powercap
       (_make_reading 0 None None) (_make_reading 4 None None)
       DEFAULT_TDP_WATTS
     = Return {| duration_seconds := 4;
                 energy_joules := 60;
                 source := "elapsed_time_estimate";
                 notes := "Estimated using elapsed=4.000s × tdp=15.0W (no CPU time available)" |}.
Proof.
  split.
  - intros base start end_ tdp_watts Hr Hc.
    unfold compute_energy.
    destruct Hr as [-> | ->], Hc as [-> | ->];
      try destruct (rapl_joules start);
      try destruct (cpu_time_seconds start); reflexivity.
  - vm_compute. reflexivity.
Qed.

Lemma compute_energy_elapsed_time_witness :
  compute_energy one_package
    (_make_reading 1 (Some 7) None) (_make_reading 5 None (Some 3)) 15
  = Return {| duration_seconds := 5 - 1;
              energy_joules := (5 - 1) * 15;
              source := "elapsed_time_estimate";
              notes := elapsed_notes (5 - 1) 15 |}.
Proof.
  apply (proj1 compute_energy_elapsed_time one_package
           (_make_reading 1 (Some 7) None)
           (_make_reading 5 None (Some 3)) 15);
    [right|left]; reflexivity.
Defined.

(** C6: the [duration_seconds] of the measurement [compute_energy] returns
    is [end.timestamp - start.timestamp] in every tier.  The timestamps
    never make it raise: it raises only what the enumeration of the sources
    raises in the wrap-around branch, and returns otherwise; an end before
    the start gives the negative difference. *)
Theorem compute_energy_duration :
  (forall base start end_ tdp_watts m,
      compute_energy base start end_ tdp_watts = Return m ->
      duration_seconds m = timestamp end_ - timestamp start)
  /\ (forall base start end_ tdp_watts e,
         compute_energy base start end_ tdp_watts = Raise e
         <-> exists start_rapl end_rapl,
               rapl_joules start = Some start_rapl
               /\ rapl_joules end_ = Some end_rapl
               /\ (end_rapl - start_rapl <? 0) = true
               /\ _rapl_packages base = Raise e)
  /\ (forall base start end_ tdp_watts,
         (forall start_rapl end_rapl,
             rapl_joules start = Some start_rapl ->
             rapl_joules end_ = Some end_rapl ->
             (end_rapl - start_rapl <? 0) = true ->
             exists packages, _rapl_packages base = Return packages) ->
         exists m, compute_energy base start end_ tdp_watts = Return m
                   /\ duration_seconds m = timestamp end_ - timestamp start)
  /\ compute_energy one_package
       (_make_reading 12.5 (Some 0) (Some 0))
       (_make_reading 10 (Some 50) (Some 1.5))
       DEFAULT_TDP_WATTS
     = Return {| duration_seconds := -2.5;
                 energy_joules := 50;
                 source := "rapl";
                 notes := "" |}
  /\ compute_energy NotListable
       (_make_reading 12.5 None None) (_make_reading 10 None None)
       DEFAULT_TDP_WATTS
     = Return {| duration_seconds := -2.5;
                 energy_joules := -37.5;
                 source := "elapsed_time_estimate";
                 notes := "Estimated using elapsed=-2.500s × tdp=15.0W (no CPU time available)" |}.
Proof.
  split; [|split; [|split]].
  - apply compute_energy_duration_returned.
  - intros base start end_ tdp_watts e. unfold compute_energy.
    destruct (rapl_joules start) as [sr|], (rapl_joules end_) as [er|];
      [| destruct (cpu_time_seconds start), (cpu_time_seconds end_);
           (split; [discriminate|]);
           intros (x & y & A & B & _); congruence ..].
    destruct (er - sr <? 0) eqn:E.
    + destruct (wrap_correct base (er - sr)) as [d|e'] eqn:W; simpl.
      * split; [discriminate|]. intros (? & ? & _ & _ & _ & R).
        apply (proj2 (wrap_correct_raises base (er - sr) e)) in R.
        congruence.
      * split.
        -- intros H. injection H as <-. exists sr, er.
           repeat split; [exact E|].
           exact (proj1 (wrap_correct_raises base (er - sr) e') W).
        -- intros (? & ? & _ & _ & _ & R).
           apply (proj2 (wrap_correct_raises base (er - sr) e)) in R.
           congruence.
    + simpl. split; [discriminate|].
      intros (? & ? & A & B & C & _).
      injection A as <-. injection B as <-. congruence.
  - intros base start end_ tdp_watts H.
    destruct (compute_energy_returns base start end_ tdp_watts H) as [m Hm].
    exists m. split; [exact Hm|].
    apply (compute_energy_duration_returned _ _ _ _ _ Hm).
  - vm_compute. repeat split.
Qed.

(** C7: for every list of sources, if the counter file of one of them is
    unreadable or non-numeric, the sum over the list is [None], whatever the
    other sources hold; when the list is the one discovery returns, the
    reading's [rapl_joules] is absent. *)
Theorem take_reading_rapl_all_or_nothing env packages p :
  In p packages ->
  energy_uj p = Unreadable \/ energy_uj p = NonNumeric ->
  _read_rapl_uj packages = Return None
  /\ (_rapl_packages (RAPL_BASE env) = Return packages ->
      exists r, take_reading env = Return r /\ rapl_joules r = None).
Proof.
  intros HI Hbad.
  assert (H : _read_rapl_uj packages = Return None).
  { apply (read_rapl_loop_none _ _ p HI).
    intros v. destruct Hbad as [E|E]; rewrite E; discriminate. }
  split; [exact H|]. intros Hd.
  eexists. split.
  - apply (take_reading_discovered env packages None Hd).
    destruct packages; [reflexivity|exact H].
  - reflexivity.
Qed.

(** Two packages, the second unreadable: no partial sum of the first. *)
Lemma take_reading_rapl_all_or_nothing_witness :
  _read_rapl_uj [pkg0; pkg1] = Return None
  /\ (_rapl_packages
        (RAPL_BASE {| RAPL_BASE := with_subzone; psutil := NoPsutil;
                      monotonic := 1 |})
      = Return [pkg0; pkg1] ->
      exists r,
        take_reading {| RAPL_BASE := with_subzone; psutil := NoPsutil;
                        monotonic := 1 |} = Return r
        /\ rapl_joules r = None).
Proof.
  apply (take_reading_rapl_all_or_nothing
           {| RAPL_BASE := with_subzone; psutil := NoPsutil; monotonic := 1 |}
           [pkg0; pkg1] pkg1).
  - right. left. reflexivity.
  - left. reflexivity.
Defined.

(** C8: the list discovery returns holds only top-level package
    directories, never a sub-zone directory nested below a package, and is
    sorted by name; discovery gives the same outcome for every order in
    which the directory yields its entries. *)
Theorem rapl_packages_top_level_sorted base :
  (forall packages,
      _rapl_packages base = Return packages ->
      Forall (fun p => (exists entries, base = Listed entries /\ In p entries)
                       /\ package_name (name p) /\ ~ subzone_name (name p)
                       /\ exists_ (energy_uj p) = Return true)
             packages
      /\ StronglySorted name_le packages)
  /\ (forall entries entries',
        base = Listed entries ->
        Permutation entries entries' ->
        NoDup (map name entries) ->
        _rapl_packages (Listed entries') = _rapl_packages base).
Proof.
  split.
  - intros packages H. split.
    + apply Forall_forall. intros p Hp.
      destruct (Discovery.rapl_packages_In _ _ _ H Hp) as (HI & Hn & He).
      pose proof (Discovery.package_named_name p Hn) as Hname.
      split; [exact HI|]. split; [exact Hname|]. split; [|exact He].
      apply Discovery.package_not_subzone, Hname.
    + destruct base as [| | |entries]; simpl in H; try discriminate H.
      * injection H as <-. constructor.
      * apply Discovery.rapl_packages_listed in H. destruct H as [_ ->].
        apply Discovery.sorted_sorted.
  - intros entries entries' -> P N. apply rapl_packages_perm_eq; assumption.
Qed.

(** The directory of the test suite with a second package: the sub-zone is
    left out and both listing orders give the same sorted list. *)
Lemma rapl_packages_top_level_sorted_witness :
  _rapl_packages with_subzone = Return [pkg0; pkg1]
  /\ _rapl_packages with_subzone' = _rapl_packages with_subzone.
Proof.
  split; [reflexivity|].
  apply (proj2 (rapl_packages_top_level_sorted with_subzone)
           [pkg1; sub0; pkg0]).
  - reflexivity.
  - apply (Permutation_cons_append [sub0; pkg0] pkg1).
  - simpl. repeat constructor; simpl; intuition discriminate.
Defined.

(** C9, on the code: [take_reading] raises what source discovery raises,
    which it calls outside any [try]: when the base directory cannot be
    looked for or listed, or a package directory cannot be searched.  In
    every other environment it returns a reading with the clock's value,
    [rapl_joules] absent when no source is discovered or a counter file
    does not parse, and [cpu_time_seconds] absent when psutil is missing or
    raises. *)
Theorem take_reading_raises_from_discovery :
  take_reading {| RAPL_BASE := NotListable; psutil := NoPsutil;
                  monotonic := 1 |} = Raise OSError
  /\ take_reading {| RAPL_BASE := Listed [locked];
                     psutil := CpuTimes 1 0.5 None; monotonic := 1 |}
     = Raise OSError
  /\ take_reading {| RAPL_BASE := Inaccessible; psutil := ProcessFails;
                     monotonic := 1 |} = Raise OSError
  /\ (forall env e,
         take_reading env = Raise e
         <-> e = OSError
             /\ (RAPL_BASE env = Inaccessible \/ RAPL_BASE env = NotListable
                 \/ exists entries p,
                      RAPL_BASE env = Listed entries /\ In p entries
                      /\ package_named p = true /\ energy_uj p = NoAccess))
  /\ (forall env packages,
         _rapl_packages (RAPL_BASE env) = Return packages ->
         exists r,
           take_reading env = Return r
           /\ timestamp r = monotonic env
           /\ (packages = [] -> rapl_joules r = None)
           /\ ((exists p, In p packages
                          /\ forall v, energy_uj p <> Numeric v) ->
               rapl_joules r = None)
           /\ (psutil env = NoPsutil \/ psutil env = ProcessFails ->
               cpu_time_seconds r = None)).
Proof.
  repeat (split; [reflexivity|]). split.
  - intros env e. rewrite take_reading_raises. apply rapl_packages_raises.
  - intros env packages Hd.
    destruct (read_packages packages) as [(Hne & Hall & H)|[Hno H]];
      (eexists; split;
       [apply (take_reading_discovered env packages _ Hd H)|]);
      simpl; (split; [reflexivity|]).
    + split; [intros E; destruct (Hne E)|]. split.
      * intros (p & HI & Hbad). destruct (Hall p HI) as [v E].
        destruct (Hbad v E).
      * intros [E|E]; rewrite E; reflexivity.
    + split; [reflexivity|]. split; [reflexivity|].
      intros [E|E]; rewrite E; reflexivity.
Qed.

(** C10: when it is not the case that both [rapl_joules] are present with
    [end.rapl_joules < start.rapl_joules], the measurement is the same for
    every state of the file system. *)
Theorem compute_energy_deterministic base base' start end_ tdp_watts :
  ~ (exists start_rapl end_rapl,
        rapl_joules start = Some start_rapl
        /\ rapl_joules end_ = Some end_rapl
        /\ (end_rapl <? start_rapl) = true) ->
  compute_energy base start end_ tdp_watts
  = compute_energy base' start end_ tdp_watts.
Proof.
  intros H. unfold compute_energy.
  destruct (rapl_joules start) as [sr|], (rapl_joules end_) as [er|];
    try reflexivity.
  rewrite FloatFacts.ltb_sub; [reflexivity|].
  destruct (er <? sr) eqn:E; [|reflexivity].
  destruct H. eauto.
Qed.

Lemma compute_energy_deterministic_witness :
  compute_energy one_package
    (_make_reading 0 (Some 100) (Some 1)) (_make_reading 5 (Some 200) (Some 3))
    15
  = compute_energy NotListable
      (_make_reading 0 (Some 100) (Some 1))
      (_make_reading 5 (Some 200) (Some 3)) 15.
Proof.
  apply compute_energy_deterministic.
  intros (sr & er & Hs & He & Hlt).
  injection Hs as <-. injection He as <-. discriminate Hlt.
Defined.

(** * Further properties *)

Lemma compute_energy_source_rapl base start end_ tdp_watts m :
  compute_energy base start end_ tdp_watts = Return m ->
  (source m = "rapl"%string
   <-> rapl_joules start <> None /\ rapl_joules end_ <> None).
Proof.
  unfold compute_energy.
  destruct (rapl_joules start) as [sr|], (rapl_joules end_) as [er|].
  1: { destruct (_ : result float) as [d|e]; simpl; [|discriminate].
       intros H. injection H as <-. simpl.
       split; [intros _; split; discriminate|reflexivity]. }
  all: destruct (cpu_time_seconds start), (cpu_time_seconds end_);
       intros H; injection H as <-; simpl;
       (split; [discriminate|intros [A B]; congruence]).
Qed.

Lemma compute_energy_nonneg_both base start end_ tdp_watts :
  finite_reading start = true -> finite_reading end_ = true ->
  non_decreasing start end_ = true ->
  is_finite tdp_watts = true -> (0 <? tdp_watts) = true ->
  exists m, compute_energy base start end_ tdp_watts = Return m
            /\ (0 <=? duration_seconds m) = true
            /\ (0 <=? energy_joules m) = true.
Proof.
  unfold finite_reading, non_decreasing, compute_energy.
  intros Fs Fe Hle Ft Ht.
  repeat (apply andb_prop in Fs; destruct Fs as [Fs ?]).
  repeat (apply andb_prop in Fe; destruct Fe as [Fe ?]).
  repeat (apply andb_prop in Hle; destruct Hle as [Hle ?]).
  assert (Hd : (0 <=? timestamp end_ - timestamp start) = true)
    by (apply FloatFacts.leb_sub; assumption).
  destruct (rapl_joules start) as [sr|], (rapl_joules end_) as [er|];
    simpl in *.
  1: { assert (Hr : (0 <=? er - sr) = true)
         by (apply FloatFacts.leb_sub; assumption).
       rewrite (FloatFacts.leb_zero_not_ltb _ Hr). simpl.
       eexists; split; [reflexivity|split; [exact Hd|exact Hr]]. }
  all: destruct (cpu_time_seconds start) as [sc|],
         (cpu_time_seconds end_) as [ec|]; simpl in *;
       eexists; (split; [reflexivity|]); simpl; (split; [exact Hd|]);
       apply FloatFacts.leb_mul; try assumption;
       apply FloatFacts.leb_sub; assumption.
Qed.

(** The hardware signal of a reading is present exactly when a source is
    discovered and every discovered counter parses. *)
Lemma take_reading_rapl_present env packages r :
  _rapl_packages (RAPL_BASE env) = Return packages ->
  take_reading env = Return r ->
  (rapl_joules r <> None <-> packages <> [] /\ all_numeric packages).
Proof.
  intros Hd Hr.
  destruct (read_packages packages) as [(Hne & Hall & H)|[Hno H]];
    rewrite (take_reading_discovered env packages _ Hd H) in Hr;
    injection Hr as <-; simpl.
  - split; [auto|discriminate].
  - split; [intros N; destruct (N eq_refl)|].
    intros [Hne Hall]. destruct Hno as [Hno|(p & HI & Hbad)];
      [destruct (Hne Hno)|].
    destruct (Hall p HI) as [v Ev]. destruct (Hbad v Ev).
Qed.

(** ** Source discovery and reading capture *)

(** X1: the list discovery returns holds exactly the entries of the listed
    base directory that pass the filter, each as often as it is listed:
    every entry named [intel-rapl:] plus a colon-free suffix whose
    [energy_uj] exists is returned.  Discovery returns the empty list when
    the base directory does not exist, and raises [OSError] exactly when
    the base directory cannot be looked for or listed or an entry with a
    package name cannot be searched. *)
Theorem rapl_packages_complete :
  (forall base packages,
      _rapl_packages base = Return packages ->
      (forall p, In p packages
                 <-> exists entries, base = Listed entries /\ In p entries
                                     /\ is_package p = Return true)
      /\ (forall entries p suffix,
            base = Listed entries -> In p entries ->
            name p = ("intel-rapl:" ++ suffix)%string ->
            contains ":" suffix = false ->
            exists_ (energy_uj p) = Return true ->
            In p packages)
      /\ (forall entries,
            base = Listed entries ->
            Permutation packages
              (filter (fun p => match is_package p with
                                | Return true => true
                                | _ => false
                                end) entries)))
  /\ _rapl_packages Absent = Return []
  /\ (forall base e,
        _rapl_packages base = Raise e
        <-> e = OSError
            /\ (base = Inaccessible \/ base = NotListable
                \/ exists entries p,
                     base = Listed entries /\ In p entries
                     /\ package_named p = true /\ energy_uj p = NoAccess)).
Proof.
  split; [|split; [reflexivity|apply rapl_packages_raises]].
  intros base packages H. split; [|split].
  - intros p. split.
    + intros Hp.
      destruct (Discovery.rapl_packages_In _ _ _ H Hp)
        as ((entries & E & HI) & Hn & He).
      exists entries. split; [exact E|]. split; [exact HI|].
      apply Discovery.is_package_true. auto.
    + intros (entries & -> & HI & Hp).
      apply (rapl_packages_member entries packages p H HI Hp).
  - intros entries p suffix -> HI Hn Hc He.
    apply (rapl_packages_member entries packages p H HI).
    apply Discovery.is_package_true. split; [|exact He].
    unfold package_named. rewrite Hn.
    rewrite (prefix_append "intel-rapl:" suffix).
    change (skip (String.length "intel-rapl:") ("intel-rapl:" ++ suffix))
      with suffix.
    rewrite Hc. reflexivity.
  - intros entries ->. apply Discovery.rapl_packages_listed in H.
    destruct H as [_ ->]. apply Discovery.sorted_perm.
Qed.

(** X2: [_read_rapl_uj] never raises: it returns the left-to-right sum of all
    counters when every counter file parses, and [None] as soon as one does
    not. *)
Theorem read_rapl_uj_all_or_none packages :
  (all_numeric packages
   /\ _read_rapl_uj packages
      = Return (Some (fold_left PrimFloat.add (counter_values packages) 0)))
  \/ ((exists p, In p packages /\ forall v, energy_uj p <> Numeric v)
      /\ _read_rapl_uj packages = Return None).
Proof.
  destruct (all_numeric_or_not packages) as [H|(p & HI & Hbad)].
  - left. split; [exact H|]. apply read_rapl_loop_numeric, H.
  - right. split; [eauto|]. apply (read_rapl_loop_none _ _ p HI Hbad).
Qed.

(** X3: a reading [take_reading] returns has the clock's value as timestamp;
    its [rapl_joules] is the sum of the discovered counters divided by
    1000000 when at least one source is discovered and all of them parse,
    and absent when none is discovered or a discovered counter is
    unreadable or non-numeric; its [cpu_time_seconds] is user plus system
    time, plus the children's where psutil has them, and absent when psutil
    is missing or raises.  [take_reading] returns whenever discovery
    does. *)
Theorem take_reading_fields env :
  (forall r,
      take_reading env = Return r ->
      exists packages,
        _rapl_packages (RAPL_BASE env) = Return packages
        /\ timestamp r = monotonic env
        /\ ((packages <> [] /\ all_numeric packages
             /\ rapl_joules r
                = Some (fold_left PrimFloat.add (counter_values packages) 0
                        / 1000000))
            \/ ((packages = []
                 \/ exists p, In p packages
                              /\ (energy_uj p = Unreadable
                                  \/ energy_uj p = NonNumeric))
                /\ rapl_joules r = None))
        /\ cpu_time_seconds r
           = match psutil env with
             | CpuTimes user system None => Some (user + system)
             | CpuTimes user system (Some (children_user, children_system)) =>
                 Some (user + system + (children_user + children_system))
             | _ => None
             end)
  /\ (forall packages,
         _rapl_packages (RAPL_BASE env) = Return packages ->
         exists r, take_reading env = Return r).
Proof.
  split.
  - intros r Hr.
    destruct (_rapl_packages (RAPL_BASE env)) as [packages|e] eqn:Hd.
    2: { apply (proj2 (take_reading_raises env e)) in Hd. congruence. }
    exists packages. split; [reflexivity|].
    destruct (read_packages packages) as [(Hne & Hall & H)|[Hno H]];
      rewrite (take_reading_discovered env packages _ Hd H) in Hr;
      injection Hr as <-; simpl; (split; [reflexivity|]);
      (split; [|destruct (psutil env) as [| |u s [[cu cs]|]]; reflexivity]).
    + left. auto.
    + right. split; [|reflexivity].
      destruct Hno as [Hno|(p & HI & Hbad)]; [left; exact Hno|].
      right. exists p. split; [exact HI|].
      destruct (Discovery.rapl_packages_In _ _ _ Hd HI) as (_ & _ & He).
      destruct (energy_uj p) as [| | | |v]; auto; try discriminate He.
      destruct (Hbad v eq_refl).
  - intros packages Hd.
    destruct (read_packages packages) as [(_ & _ & H)|[_ H]];
      eexists; apply (take_reading_discovered env packages _ Hd H).
Qed.

(** X4: when no counter that parses is negative and psutil reports no negative
    time, the reading's [rapl_joules] and [cpu_time_seconds], where present,
    are [>= 0] (and not NaN). *)
Theorem take_reading_nonneg env packages r :
  take_reading env = Return r ->
  _rapl_packages (RAPL_BASE env) = Return packages ->
  counters_nonneg packages ->
  cpu_times_nonneg (psutil env) ->
  (forall j, rapl_joules r = Some j -> (0 <=? j) = true)
  /\ (forall c, cpu_time_seconds r = Some c -> (0 <=? c) = true).
Proof.
  intros Hr Hd Hn Hc.
  destruct (read_packages packages) as [(Hne & Hall & H)|[Hno H]];
    rewrite (take_reading_discovered env packages _ Hd H) in Hr;
    injection Hr as <-; simpl; split; try discriminate.
  1: { intros j Hj. injection Hj as <-.
       apply FloatArith.div_million_nonneg, fold_add_nonneg; [reflexivity|].
       apply counter_values_nonneg, Hn. }
  all: intros c E; apply (read_cpu_time_nonneg (psutil env)); [exact Hc|];
       rewrite <- E;
       destruct (psutil env) as [| |u s [[cu cs]|]]; reflexivity.
Qed.

Lemma take_reading_nonneg_witness :
  (forall j,
      rapl_joules {| timestamp := 100;
                     rapl_joules := Some (100000 / 1000000);
                     cpu_time_seconds := Some 4 |} = Some j ->
      (0 <=? j) = true)
  /\ (forall c,
        cpu_time_seconds {| timestamp := 100;
                            rapl_joules := Some (100000 / 1000000);
                            cpu_time_seconds := Some 4 |} = Some c ->
        (0 <=? c) = true).
Proof.
  apply (take_reading_nonneg
           {| RAPL_BASE := one_package;
              psutil := CpuTimes 1.5 0.25 (Some (2, 0.25));
              monotonic := 100 |} [wrap_pkg]).
  - vm_compute. reflexivity.
  - reflexivity.
  - intros p v [<-|[]] E. injection E as <-. reflexivity.
  - simpl. repeat split.
Defined.

(** ** Energy computation *)

(** X5: the source of a measurement [compute_energy] returns names the tier:
    ["rapl"] exactly when both [rapl_joules] are present,
    ["cpu_time_estimate"] exactly when they are not and both
    [cpu_time_seconds] are, ["elapsed_time_estimate"] otherwise; the notes
    are empty exactly for ["rapl"]. *)
Theorem compute_energy_source_notes base start end_ tdp_watts m :
  compute_energy base start end_ tdp_watts = Return m ->
  (source m = "rapl"%string
   <-> rapl_joules start <> None /\ rapl_joules end_ <> None)
  /\ (source m = "cpu_time_estimate"%string
      <-> (rapl_joules start = None \/ rapl_joules end_ = None)
          /\ cpu_time_seconds start <> None
          /\ cpu_time_seconds end_ <> None)
  /\ (source m = "elapsed_time_estimate"%string
      <-> (rapl_joules start = None \/ rapl_joules end_ = None)
          /\ (cpu_time_seconds start = None
              \/ cpu_time_seconds end_ = None))
  /\ (notes m = ""%string <-> source m = "rapl"%string).
Proof.
  unfold compute_energy.
  destruct (rapl_joules start) as [sr|], (rapl_joules end_) as [er|].
  1: { destruct (_ : result float) as [d|e]; simpl; [|discriminate].
       intros H. injection H as <-. simpl.
       repeat split; try discriminate; try tauto;
         intros [[H|H] _]; discriminate H. }
  all: destruct (cpu_time_seconds start) as [sc|],
         (cpu_time_seconds end_) as [ec|];
       intros H; injection H as <-; simpl;
       unfold cpu_notes, elapsed_notes; simpl;
       repeat split; try discriminate; try tauto; auto;
       try (intros [? ?]; congruence);
       try (intros (_ & ? & ?); congruence);
       try (intros [_ [?|?]]; congruence).
Qed.

Lemma compute_energy_source_notes_witness :
  (source {| duration_seconds := 5; energy_joules := 20;
             source := "cpu_time_estimate";
             notes := "Estimated using cpu_time=2.000s × tdp=10.0W" |}
   = "rapl"%string
   <-> rapl_joules (_make_reading 0 None (Some 1)) <> None
       /\ rapl_joules (_make_reading 5 (Some 7) (Some 3)) <> None)
  /\ (source {| duration_seconds := 5; energy_joules := 20;
                source := "cpu_time_estimate";
                notes := "Estimated using cpu_time=2.000s × tdp=10.0W" |}
      = "cpu_time_estimate"%string
      <-> (rapl_joules (_make_reading 0 None (Some 1)) = None
           \/ rapl_joules (_make_reading 5 (Some 7) (Some 3)) = None)
          /\ cpu_time_seconds (_make_reading 0 None (Some 1)) <> None
          /\ cpu_time_seconds (_make_reading 5 (Some 7) (Some 3)) <> None)
  /\ (source {| duration_seconds := 5; energy_joules := 20;
                source := "cpu_time_estimate";
                notes := "Estimated using cpu_time=2.000s × tdp=10.0W" |}
      = "elapsed_time_estimate"%string
      <-> (rapl_joules (_make_reading 0 None (Some 1)) = None
           \/ rapl_joules (_make_reading 5 (Some 7) (Some 3)) = None)
          /\ (cpu_time_seconds (_make_reading 0 None (Some 1)) = None
              \/ cpu_time_seconds (_make_reading 5 (Some 7) (Some 3)) = None))
  /\ (notes {| duration_seconds := 5; energy_joules := 20;
               source := "cpu_time_estimate";
               notes := "Estimated using cpu_time=2.000s × tdp=10.0W" |}
      = ""%string
      <-> source {| duration_seconds := 5; energy_joules := 20;
                    source := "cpu_time_estimate";
                    notes := "Estimated using cpu_time=2.000s × tdp=10.0W" |}
          = "rapl"%string).
Proof.
  apply (compute_energy_source_notes NotListable
           (_make_reading 0 None (Some 1))
           (_make_reading 5 (Some 7) (Some 3)) 10).
  vm_compute. reflexivity.
Defined.

(** X6: in the wrap-around branch, once the sources are enumerated, a range
    file that cannot be looked for, read or parsed makes the energy
    [abs(delta)], which is strictly positive. *)
Theorem compute_energy_wrap_fallback_positive
    base start end_ tdp_watts start_rapl end_rapl packages p :
  rapl_joules start = Some start_rapl ->
  rapl_joules end_ = Some end_rapl ->
  (end_rapl - start_rapl <? 0) = true ->
  _rapl_packages base = Return packages ->
  In p packages ->
  range_fails p ->
  exists m,
    compute_energy base start end_ tdp_watts = Return m
    /\ energy_joules m = abs (end_rapl - start_rapl)
    /\ (0 <? energy_joules m) = true.
Proof.
  intros Hs He Hd Hp HI Hbad.
  unfold compute_energy. rewrite Hs, He, Hd.
  rewrite (wrap_correct_abs _ _ _ _ Hp HI Hbad). simpl.
  eexists; split; [reflexivity|]; split; [reflexivity|].
  apply FloatArith.abs_pos, Hd.
Qed.

Lemma compute_energy_wrap_fallback_positive_witness :
  exists m,
    compute_energy with_subzone
      (_make_reading 0 (Some 5) None) (_make_reading 2 (Some 1) None) 15
    = Return m
    /\ energy_joules m = abs (1 - 5)
    /\ (0 <? energy_joules m) = true.
Proof.
  apply (compute_energy_wrap_fallback_positive with_subzone
           (_make_reading 0 (Some 5) None) (_make_reading 2 (Some 1) None)
           15 5 1 [pkg0; pkg1] pkg1).
  - reflexivity.
  - reflexivity.
  - reflexivity.
  - reflexivity.
  - right. left. reflexivity.
  - right. left. reflexivity.
Defined.

(** X7: in the wrap-around branch, once the sources are enumerated, when
    every existing range file parses and their sum in joules is finite and
    at least [-delta], the corrected energy [delta + range] is [>= 0]. *)
Theorem compute_energy_wrap_corrected_nonneg
    base start end_ tdp_watts start_rapl end_rapl packages :
  rapl_joules start = Some start_rapl ->
  rapl_joules end_ = Some end_rapl ->
  (end_rapl - start_rapl <? 0) = true ->
  _rapl_packages base = Return packages ->
  (forall p, In p packages -> range_parses p) ->
  let range := sum (existing_max_ranges packages) / 1000000 in
  is_finite range = true ->
  (- (end_rapl - start_rapl) <=? range) = true ->
  exists m,
    compute_energy base start end_ tdp_watts = Return m
    /\ energy_joules m = (end_rapl - start_rapl) + range
    /\ (0 <=? energy_joules m) = true.
Proof.
  intros Hs He Hd Hp Hall range Hf Hle.
  unfold compute_energy. rewrite Hs, He, Hd.
  rewrite (wrap_correct_sum _ _ _ Hp Hall). simpl.
  eexists. split; [reflexivity|]. split; [reflexivity|]. simpl.
  apply FloatArith.add_nonneg_of_leb; assumption.
Qed.

Lemma compute_energy_wrap_corrected_nonneg_witness :
  exists m,
    compute_energy one_package
      (_make_reading 0 (Some 262143) None) (_make_reading 5 (Some 10) None) 15
    = Return m
    /\ energy_joules m
       = (10 - 262143) + sum (existing_max_ranges [wrap_pkg]) / 1000000
    /\ (0 <=? energy_joules m) = true.
Proof.
  apply (compute_energy_wrap_corrected_nonneg one_package
           (_make_reading 0 (Some 262143) None)
           (_make_reading 5 (Some 10) None) 15 262143 10 [wrap_pkg]).
  - reflexivity.
  - reflexivity.
  - reflexivity.
  - reflexivity.
  - intros p [<-|[]]. right. eexists. reflexivity.
  - vm_compute. reflexivity.
  - vm_compute. reflexivity.
Defined.

(** X10: the test [delta < 0] on the rounded difference is the comparison
    [end.rapl_joules < start.rapl_joules]: the wrap-around branch is taken
    exactly when the counter went down, however small the drop, and
    otherwise the difference is returned as it is and is not negative. *)
Theorem compute_energy_wrap_detection
    base start end_ tdp_watts start_rapl end_rapl :
  rapl_joules start = Some start_rapl ->
  rapl_joules end_ = Some end_rapl ->
  if end_rapl <? start_rapl then
    compute_energy base start end_ tdp_watts
    = (delta <- wrap_correct base (end_rapl - start_rapl) ;;
       Return {| duration_seconds := timestamp end_ - timestamp start;
                 energy_joules := delta;
                 source := "rapl";
                 notes := "" |})
  else
    compute_energy base start end_ tdp_watts
    = Return {| duration_seconds := timestamp end_ - timestamp start;
                energy_joules := end_rapl - start_rapl;
                source := "rapl";
                notes := "" |}
    /\ (end_rapl - start_rapl <? 0) = false.
Proof.
  intros Hs He. unfold compute_energy. rewrite Hs, He.
  rewrite FloatStrict.sub_ltb_zero.
  destruct (end_rapl <? start_rapl); [reflexivity|]. split; reflexivity.
Qed.

Lemma compute_energy_wrap_detection_witness :
  compute_energy one_package
    (_make_reading 0 (Some 0x1p-1074) None) (_make_reading 1 (Some 0) None) 15
  = (delta <- wrap_correct one_package (0 - 0x1p-1074) ;;
     Return {| duration_seconds := 1 - 0;
               energy_joules := delta;
               source := "rapl";
               notes := "" |}).
Proof.
  apply (compute_energy_wrap_detection one_package
           (_make_reading 0 (Some 0x1p-1074) None)
           (_make_reading 1 (Some 0) None) 15 0x1p-1074 0);
    reflexivity.
Defined.

(** X11: the hardware tier returns a negative energy only when the counter
    went down, the sources were enumerated, every existing range file
    parsed, and the sum of the ranges in joules is smaller than the drop. *)
Theorem compute_energy_rapl_negative
    base start end_ tdp_watts start_rapl end_rapl m :
  rapl_joules start = Some start_rapl ->
  rapl_joules end_ = Some end_rapl ->
  compute_energy base start end_ tdp_watts = Return m ->
  (energy_joules m <? 0) = true ->
  exists packages,
    _rapl_packages base = Return packages
    /\ let range := sum (existing_max_ranges packages) / 1000000 in
       (end_rapl <? start_rapl) = true
       /\ (forall p, In p packages -> range_parses p)
       /\ energy_joules m = (end_rapl - start_rapl) + range
       /\ (range <? - (end_rapl - start_rapl)) = true.
Proof.
  intros Hs He Hm Hneg.
  unfold compute_energy in Hm. rewrite Hs, He in Hm.
  rewrite FloatStrict.sub_ltb_zero in Hm.
  destruct (end_rapl <? start_rapl) eqn:Hlt.
  - unfold wrap_correct in Hm.
    destruct (_rapl_packages base) as [packages|e0] eqn:Hp; simpl in Hm;
      [|discriminate Hm].
    exists packages. split; [reflexivity|]. simpl.
    split; [reflexivity|].
    destruct (max_ranges packages) as [vs|e] eqn:E; simpl in Hm.
    + injection Hm as <-. simpl in *.
      destruct (max_ranges_returns _ _ E) as [-> Hall].
      split; [exact Hall|]. split; [reflexivity|].
      destruct (_ <? - _) eqn:R; [reflexivity|].
      rewrite (FloatArith.add_not_ltb _ _ R) in Hneg. discriminate Hneg.
    + pose proof (FloatStrict.ltb_sub_true _ _ Hlt) as Hd.
      assert (Habs : (abs (end_rapl - start_rapl) <? 0) = false).
      { apply FloatFacts.leb_zero_not_ltb.
        apply FloatFacts.ltb_zero_abs, Hd. }
      destruct (max_ranges_raises _ _ E) as [-> | ->]; simpl in Hm;
        injection Hm as <-; simpl in Hneg; congruence.
  - simpl in Hm. injection Hm as <-. simpl in Hneg.
    rewrite (FloatFacts.ltb_sub _ _ Hlt) in Hneg. discriminate Hneg.
Qed.

Lemma compute_energy_rapl_negative_witness :
  exists packages,
    _rapl_packages (Listed [pkg0]) = Return packages
    /\ let range := sum (existing_max_ranges packages) / 1000000 in
       (1 <? 5) = true
       /\ (forall p, In p packages -> range_parses p)
       /\ energy_joules {| duration_seconds := 2; energy_joules := -4;
                           source := "rapl"; notes := "" |}
          = (1 - 5) + range
       /\ (range <? - (1 - 5)) = true.
Proof.
  apply (compute_energy_rapl_negative (Listed [pkg0])
           (_make_reading 0 (Some 5) None) (_make_reading 2 (Some 1) None)
           15 5 1).
  - reflexivity.
  - reflexivity.
  - vm_compute. reflexivity.
  - reflexivity.
Defined.

(** ** One benchmark trial *)

Lemma take_reading_returned env r :
  take_reading env = Return r ->
  timestamp r = monotonic env
  /\ (rapl_joules r <> None
      <-> exists packages,
            _rapl_packages (RAPL_BASE env) = Return packages
            /\ packages <> [] /\ all_numeric packages).
Proof.
  intros Hr.
  destruct (_rapl_packages (RAPL_BASE env)) as [packages|e] eqn:Hd.
  2: { apply (proj2 (take_reading_raises env e)) in Hd. congruence. }
  pose proof (take_reading_rapl_present env packages r Hd Hr) as P.
  split.
  - destruct (read_packages packages) as [(_ & _ & H)|[_ H]];
      rewrite (take_reading_discovered env packages _ Hd H) in Hr;
      injection Hr as <-; reflexivity.
  - rewrite P. split.
    + intros H. exists packages. split; [reflexivity|exact H].
    + intros (ps & E & H). injection E as <-. exact H.
Qed.

(** X8: [benchmark_manager] returns a result exactly when the temporary
    directory is created and removed, the install returns, and neither
    reading nor the computation raises.  The result then carries the
    runner's name, ["install"], the packages and the run index, the
    measurement's energy, source and notes, and the difference of the two
    clock values as duration; its source is ["rapl"] exactly when at both
    readings a source is discovered and every counter parses.  Otherwise
    the exception of the temporary directory, of the meter or of the
    install leaves the function. *)
Theorem benchmark_manager_outcome runner pkgs run_index tdp_watts w :
  let readable env :=
    exists packages,
      _rapl_packages (RAPL_BASE env) = Return packages
      /\ packages <> [] /\ all_numeric packages in
  (forall r,
      Benchmark.benchmark_manager runner pkgs run_index tdp_watts w
      = Benchmark.Done r ->
      Benchmark.tmp_created w = true /\ Benchmark.tmp_removed w = true
      /\ Benchmark.run_install w = None
      /\ exists start end_ m,
           take_reading (Benchmark.before w) = Return start
           /\ take_reading (Benchmark.after w) = Return end_
           /\ compute_energy (Benchmark.at_compute w) start end_ tdp_watts
              = Return m
           /\ r = {| Benchmark.manager := Benchmark.name runner;
                     Benchmark.operation := "install";
                     Benchmark.packages := pkgs;
                     Benchmark.run := run_index;
                     Benchmark.duration_seconds :=
                       monotonic (Benchmark.after w)
                       - monotonic (Benchmark.before w);
                     Benchmark.energy_joules := energy_joules m;
                     Benchmark.energy_source := source m;
                     Benchmark.notes := notes m |}
           /\ (Benchmark.energy_source r = "rapl"%string
               <-> readable (Benchmark.before w)
                   /\ readable (Benchmark.after w)))
  /\ (forall f,
        Benchmark.benchmark_manager runner pkgs run_index tdp_watts w
        = Benchmark.Failed f ->
        (f = Benchmark.TmpDirError
         /\ (Benchmark.tmp_created w = false
             \/ Benchmark.tmp_removed w = false))
        \/ (exists e,
              f = Benchmark.MeterError e
              /\ take_reading (Benchmark.before w) = Raise e)
        \/ (Benchmark.run_install w = Some f
            /\ exists start, take_reading (Benchmark.before w) = Return start)
        \/ (exists e,
              f = Benchmark.MeterError e
              /\ Benchmark.run_install w = None
              /\ take_reading (Benchmark.after w) = Raise e)
        \/ (exists e start end_,
              f = Benchmark.MeterError e
              /\ Benchmark.run_install w = None
              /\ take_reading (Benchmark.before w) = Return start
              /\ take_reading (Benchmark.after w) = Return end_
              /\ compute_energy (Benchmark.at_compute w) start end_ tdp_watts
                 = Raise e))
  /\ (Benchmark.tmp_created w = true -> Benchmark.tmp_removed w = true ->
      Benchmark.run_install w = None ->
      forall start end_ m,
        take_reading (Benchmark.before w) = Return start ->
        take_reading (Benchmark.after w) = Return end_ ->
        compute_energy (Benchmark.at_compute w) start end_ tdp_watts
        = Return m ->
        exists r,
          Benchmark.benchmark_manager runner pkgs run_index tdp_watts w
          = Benchmark.Done r).
Proof.
  intros readable.
  unfold Benchmark.benchmark_manager, Benchmark.with_tmp_dir,
    Benchmark.readings.
  destruct (Benchmark.tmp_created w);
    [|split; [discriminate|split; [|discriminate]];
      intros f H; injection H as <-; auto].
  destruct (Benchmark.tmp_removed w);
    [|split; [discriminate|split; [|discriminate]];
      intros f H; injection H as <-; auto].
  destruct (take_reading (Benchmark.before w)) as [s|e] eqn:Hs; simpl.
  2: { split; [discriminate|split; [|discriminate]].
       intros f H. injection H as <-. right. left. eauto. }
  destruct (Benchmark.run_install w) as [f0|]; simpl.
  1: { split; [discriminate|split; [|discriminate]].
       intros f H. injection H as <-. right. right. left. eauto. }
  destruct (take_reading (Benchmark.after w)) as [e'|e] eqn:He; simpl.
  2: { split; [discriminate|split; [|discriminate]].
       intros f H. injection H as <-. do 3 right. left. eauto. }
  destruct (compute_energy (Benchmark.at_compute w) s e' tdp_watts)
    as [m|e] eqn:Hm; simpl.
  2: { split; [discriminate|split].
       - intros f H. injection H as <-. do 4 right. exists e, s, e'. auto.
       - intros _ _ _ start end_ m Es Ee.
         injection Es as <-. injection Ee as <-. congruence. }
  pose proof (compute_energy_duration_returned _ _ _ _ _ Hm) as Hd.
  pose proof (compute_energy_source_rapl _ _ _ _ _ Hm) as Hsrc.
  destruct (take_reading_returned _ _ Hs) as [Hts Hrs].
  destruct (take_reading_returned _ _ He) as [Hte Hre].
  destruct m as [d en src nts]. simpl in *.
  split; [|split; [discriminate|eauto]].
  intros r H. injection H as <-.
  repeat (split; [reflexivity|]).
  exists s, e', {| duration_seconds := d; energy_joules := en;
                   source := src; notes := nts |}.
  split; [reflexivity|]. split; [reflexivity|]. split; [exact Hm|]. split.
  - simpl. rewrite Hd, Hts, Hte. reflexivity.
  - simpl. unfold readable. rewrite Hsrc, Hrs, Hre. reflexivity.
Qed.

(** X9: when the temporary directory is created and removed, the install
    returns and the two readings are finite with no signal decreasing, for
    a finite [tdp_watts > 0] the trial returns a result whose duration and
    energy are [>= 0]. *)
Theorem benchmark_manager_nonneg runner pkgs run_index tdp_watts w start end_ :
  Benchmark.tmp_created w = true -> Benchmark.tmp_removed w = true ->
  Benchmark.run_install w = None ->
  take_reading (Benchmark.before w) = Return start ->
  take_reading (Benchmark.after w) = Return end_ ->
  finite_reading start = true -> finite_reading end_ = true ->
  non_decreasing start end_ = true ->
  is_finite tdp_watts = true -> (0 <? tdp_watts) = true ->
  exists r,
    Benchmark.benchmark_manager runner pkgs run_index tdp_watts w
    = Benchmark.Done r
    /\ (0 <=? Benchmark.duration_seconds r) = true
    /\ (0 <=? Benchmark.energy_joules r) = true.
Proof.
  intros Hc Hrm Hi Hs He Fs Fe Hle Ft Ht.
  unfold Benchmark.benchmark_manager, Benchmark.with_tmp_dir,
    Benchmark.readings.
  rewrite Hc, Hrm, Hs. simpl. rewrite Hi, He. simpl.
  destruct (compute_energy_nonneg_both (Benchmark.at_compute w) start end_
              tdp_watts Fs Fe Hle Ft Ht) as (m & Hm & Hd & Hen).
  rewrite Hm. simpl. destruct m as [d en src nts]. simpl in *.
  eexists. split; [reflexivity|]. split; assumption.
Qed.

Lemma benchmark_manager_nonneg_witness :
  exists r,
    Benchmark.benchmark_manager {| Benchmark.name := "mock" |} ["requests"%string]
      1 15
      {| Benchmark.tmp_created := true;
         Benchmark.before :=
           {| RAPL_BASE := no_powercap; psutil := CpuTimes 1 0.5 None;
              monotonic := 100 |};
         Benchmark.run_install := None;
         Benchmark.after :=
           {| RAPL_BASE := no_powercap; psutil := CpuTimes 2 1 None;
              monotonic := 104 |};
         Benchmark.tmp_removed := true;
         Benchmark.at_compute := NotListable |}
    = Benchmark.Done r
    /\ (0 <=? Benchmark.duration_seconds r) = true
    /\ (0 <=? Benchmark.energy_joules r) = true.
Proof.
  apply (benchmark_manager_nonneg {| Benchmark.name := "mock" |}
           ["requests"%string] 1 15 _
           (_make_reading 100 None (Some 1.5))
           (_make_reading 104 None (Some 3)));
    vm_compute; reflexivity.
Defined.
